(** * Rowguard: the condition tree, its SQL rendering and its builders

    A shallow embedding of the TypeScript sources of rowguard
    (sql.ts, context.ts, column.ts, validation.ts, subquery-builder.ts)
    together with the properties that its specification states about them.

    Conventions of the embedding.
    - A JavaScript string is a [string]: the sequence of its UTF-8 bytes.
      The sources only look at the ASCII characters [a-zA-Z0-9_], the two
      quote characters and the dot, and none of them occurs inside a
      multi-byte sequence, so testing and replacing them bytewise is exact.
    - A call that may throw returns a [result]; a method that mutates its
      receiver returns the outcome together with the receiver afterwards.
    - [undefined] for an optional field is [None].  JavaScript's truthiness
      test on an optional string is [truthy]. *)

From Stdlib Require Import String Ascii List ZArith Bool Lia DecimalString.
Import ListNotations.
Local Open Scope list_scope.
Local Open Scope string_scope.

Set Warnings "-register-all".

Set Implicit Arguments.

(** ** Exceptions *)

Inductive JsError : Type :=
| Error (message : string)
| RangeError (message : string)
| TypeError (message : string).

Inductive result (A : Type) : Type :=
| Ok (a : A)
| Throw (e : JsError).

Arguments Ok {A} a.
Arguments Throw {A} e.

Definition bind {A B : Type} (m : result A) (k : A -> result B) : result B :=
  match m with
  | Ok a => k a
  | Throw e => Throw e
  end.

Notation "x <- m ;; k" := (bind m (fun x => k))
  (at level 61, m at next level, right associativity).

Definition returns {A : Type} (m : result A) : bool :=
  match m with Ok _ => true | Throw _ => false end.

(** ** Strings *)

Module Str.

Definition dquote : ascii := ascii_of_nat 34.
Definition squote : ascii := "'"%char.
Definition dot : ascii := "."%char.
Definition newline : string := String (ascii_of_nat 10) EmptyString.

Definition of_char (c : ascii) : string := String c EmptyString.

(** [s.replace(/c/g, by)] for a one-character pattern. *)
Fixpoint replaceAll (c : ascii) (by_ : string) (s : string) : string :=
  match s with
  | EmptyString => EmptyString
  | String a rest =>
      if Ascii.eqb a c then by_ ++ replaceAll c by_ rest
      else String a (replaceAll c by_ rest)
  end.

(** [items.join(sep)] on an array of strings. *)
Fixpoint join (sep : string) (items : list string) : string :=
  match items with
  | [] => EmptyString
  | [x] => x
  | x :: rest => x ++ sep ++ join sep rest
  end.

(** The character class [a-zA-Z0-9_]. *)
Definition word_char (a : ascii) : bool :=
  let n := nat_of_ascii a in
  (((97 <=? n) && (n <=? 122)) || ((65 <=? n) && (n <=? 90))
   || ((48 <=? n) && (n <=? 57)) || (n =? 95))%nat.

(** [/[^a-zA-Z0-9_]/.test(s)] *)
Fixpoint has_special (s : string) : bool :=
  match s with
  | EmptyString => false
  | String a rest => negb (word_char a) || has_special rest
  end.

(** [s.indexOf(c, start)], with the index counted from the start of the
    whole string: [offset] is the position of the first character of [s]. *)
Fixpoint indexOf_at (c : ascii) (offset : nat) (s : string) : option nat :=
  match s with
  | EmptyString => None
  | String a rest =>
      if Ascii.eqb a c then Some offset else indexOf_at c (S offset) rest
  end.

Fixpoint drop (n : nat) (s : string) : string :=
  match n, s with
  | O, _ => s
  | S _, EmptyString => EmptyString
  | S m, String _ rest => drop m rest
  end.

Definition indexOf (c : ascii) (start : nat) (s : string) : option nat :=
  indexOf_at c start (drop start s).

Definition startsWith (c : ascii) (s : string) : bool :=
  match s with
  | String a _ => Ascii.eqb a c
  | EmptyString => false
  end.

(** [s.substring(i, j)] for [i <= j]. *)
Definition substring (i j : nat) (s : string) : string :=
  String.substring i (j - i) s.

(** [s.toUpperCase()] on ASCII letters. *)
Definition upper_char (a : ascii) : ascii :=
  let n := nat_of_ascii a in
  if ((97 <=? n) && (n <=? 122))%nat then ascii_of_nat (n - 32)%nat else a.

Fixpoint toUpperCase (s : string) : string :=
  match s with
  | EmptyString => EmptyString
  | String a rest => String (upper_char a) (toUpperCase rest)
  end.

Definition is_empty (s : string) : bool :=
  match s with EmptyString => true | _ => false end.

End Str.

(** JavaScript truthiness of an optional string: [undefined] and the empty
    string are falsy. *)
Definition truthy (o : option string) : bool :=
  match o with
  | Some s => negb (Str.is_empty s)
  | None => false
  end.

(** [o ? k(o) : d] for an optional string [o]. *)
Definition if_truthy {A : Type} (o : option string) (k : string -> A) (d : A) : A :=
  match o with
  | Some s => if Str.is_empty s then d else k s
  | None => d
  end.

(** [a || b] where [a] is an optional string and [b] a string. *)
Definition or_else (a : option string) (b : string) : string :=
  match a with
  | Some s => if Str.is_empty s then b else s
  | None => b
  end.

(** ** Numbers

    A JavaScript number is a double: NaN, an infinity, or a finite value
    with a sign.  [Finite negative m e] is the double nearest to m * 2^e
    (ties to the even mantissa), as a numeric literal denotes the number
    nearest to what it spells; every finite double is m * 2^e for some m
    and e.  [Number z] is the number that the integer literal z denotes. *)

(** The decimal digits of an integer. *)
Definition decimal (n : Z) : string :=
  NilZero.string_of_int (Z.to_int n).

Inductive JsNumber : Type :=
| NaN
| Infinity (negative : bool)
| Finite (negative : bool) (mantissa : N) (exponent : Z).

Definition Number (z : Z) : JsNumber :=
  Finite (z <? 0)%Z (Z.abs_N z) 0%Z.

(** [Number::toString] of ECMAScript for radix 10, on exact integers. *)
Module Double.

Local Open Scope Z_scope.

Fixpoint power_pos (b : Z) (p : positive) : Z :=
  match p with
  | xH => b
  | xO q => let r := power_pos b q in r * r
  | xI q => let r := power_pos b q in b * (r * r)
  end.

(** [b ^ n] for [n >= 0], and 1 for a negative [n]. *)
Definition power (b n : Z) : Z :=
  match n with
  | Zpos p => power_pos b p
  | _ => 1
  end.

(** What m * 2^e rounds to: zero, a double [Binary m' e'] = m' * 2^e' with
    m' below 2^53 and e' from -1074 to 971, or beyond the largest double. *)
Inductive rounded : Type :=
| Zero
| Overflow
| Binary (m e : Z).

Definition round (m e : Z) : rounded :=
  if m =? 0 then Zero
  else
    let bits := Z.log2 m + 1 in
    let e1 := Z.max (e + bits - 53) (-1074) in
    let '(m1, e2) :=
      if e1 <=? e then (m * power 2 (e - e1), e1)
      else
        let d := e1 - e in
        let q := m / power 2 d in
        let r := m mod power 2 d in
        let half := power 2 (d - 1) in
        let up := (half <? r) || ((r =? half) && Z.odd q) in
        let m1 := if up then q + 1 else q in
        if m1 =? power 2 53 then (power 2 52, e1 + 1) else (m1, e1) in
    if m1 =? 0 then Zero
    else if 971 <? e2 then Overflow
    else Binary m1 e2.

(** [a * 10^t] against [b * 2^e]. *)
Definition compare_scaled (a t b e : Z) : comparison :=
  (a * power 10 t * power 2 (- e) ?= b * power 2 e * power 10 (- t)).

Definition below (a t b e : Z) : bool :=
  match compare_scaled a t b e with Lt => true | _ => false end.

(** The least [n], counted up from a first guess, with x * 2^e < 10^n. *)
Fixpoint magnitude (fuel : nat) (n x e : Z) : Z :=
  match fuel with
  | O => n
  | S fuel' => if below 1 n x e then magnitude fuel' (n + 1) x e else n
  end.

(** floor (x * 2^e / 10^t) *)
Definition quotient (x e t : Z) : Z :=
  (x * power 2 e * power 10 (- t)) / (power 10 t * power 2 (- e)).

(** Whether s * 10^t lies between lo * 2^e and hi * 2^e, the bounds
    counted in when the mantissa is even. *)
Definition inside (even : bool) (lo hi s t e : Z) : bool :=
  match compare_scaled s t lo e, compare_scaled s t hi e with
  | Gt, Lt => true
  | Eq, Lt | Gt, Eq | Eq, Eq => even
  | _, _ => false
  end.

(** The integer s of k digits, if there is one, for which s * 10^(n-k)
    rounds to the double m * 2^e: of the two integers around the exact
    quotient the one that rounds to the double, the nearer one when both
    do, the even one when they are as near.  The bounds are the halfway
    points to the neighbouring doubles, taken four times as large to stay
    in the integers. *)
Definition candidate (m e n k : Z) : option (Z * Z) :=
  let x := 4 * m in
  let e' := e - 2 in
  let lo := if (m =? power 2 52) && (-1074 <? e) then x - 1 else x - 2 in
  let hi := x + 2 in
  let t := n - k in
  let s := quotient x e' t in
  let ok_lo := inside (Z.even m) lo hi s t e' in
  let ok_hi := inside (Z.even m) lo hi (s + 1) t e' in
  let mid := compare_scaled (2 * s + 1) t (2 * x) e' in
  let pick :=
    match ok_lo, ok_hi with
    | true, true =>
        match mid with
        | Gt => Some s
        | Lt => Some (s + 1)
        | Eq => Some (if Z.even s then s else s + 1)
        end
    | true, false => Some s
    | false, true => Some (s + 1)
    | false, false => None
    end in
  match pick with
  | Some s' => if s' =? power 10 k then Some (s' / 10, n + 1) else Some (s', n)
  | None => None
  end.

(** The digits s, the exponent n and the least number of digits k. *)
Fixpoint shortest (fuel : nat) (m e n k : Z) : Z * Z * Z :=
  match fuel with
  | O => (m, n, k)
  | S fuel' =>
      match candidate m e n k with
      | Some (s, n') => (s, n', k)
      | None => shortest fuel' m e n (k + 1)
      end
  end.

Definition zeros (n : Z) : string :=
  String.concat EmptyString (repeat "0" (Z.to_nat n)).

Definition layout (digits : string) (n k : Z) : string :=
  if (k <=? n) && (n <=? 21) then digits ++ zeros (n - k)
  else if (0 <? n) && (n <=? 21) then
    String.substring 0 (Z.to_nat n) digits ++ "."
      ++ String.substring (Z.to_nat n) (Z.to_nat (k - n)) digits
  else if (-6 <? n) && (n <=? 0) then "0." ++ zeros (- n) ++ digits
  else
    let e := n - 1 in
    let sign := if e <? 0 then "-" else "+" in
    if k =? 1 then digits ++ "e" ++ sign ++ decimal (Z.abs e)
    else
      String.substring 0 1 digits ++ "."
        ++ String.substring 1 (Z.to_nat (k - 1)) digits
        ++ "e" ++ sign ++ decimal (Z.abs e).

(** The text of the positive double m * 2^e. *)
Definition toString (m e : Z) : string :=
  let guess := (Z.log2 m + e) * 30103 / 100000 - 1 in
  let n := magnitude 8 guess m e in
  let '(s, n', k) := shortest 17 m e n 1 in
  layout (decimal s) n' k.

End Double.

(** [String(n)] for a number [n]. *)
Definition String_number (n : JsNumber) : string :=
  match n with
  | NaN => "NaN"
  | Infinity negative => if negative then "-Infinity" else "Infinity"
  | Finite negative m e =>
      match Double.round (Z.of_N m) e with
      | Double.Zero => "0"
      | Double.Overflow => if negative then "-Infinity" else "Infinity"
      | Double.Binary m' e' =>
          (if negative then "-" else EmptyString) ++ Double.toString m' e'
      end
  end.

(** ** Dates *)

(** A [Date] object holds a time value: milliseconds since the epoch, or NaN
    (an "Invalid Date", e.g. [new Date(NaN)] or [new Date("nonsense")]). *)
Inductive Date : Type :=
| TimeValue (ms : Z)
| InvalidDate.

Module Iso.

Definition msPerDay : Z := 86400000%Z.
Definition maxTime : Z := 8640000000000000%Z.

Fixpoint pad_nat (width : nat) (n : Z) : string :=
  match width with
  | O => EmptyString
  | S w => pad_nat w (n / 10)%Z ++ decimal (n mod 10)%Z
  end.

(** Year, month and day of a day number counted from 1970-01-01
    (proleptic Gregorian calendar). *)
Definition civil (days : Z) : Z * Z * Z :=
  let z := (days + 719468)%Z in
  let era := (z / 146097)%Z in
  let doe := (z - era * 146097)%Z in
  let yoe := ((doe - doe / 1460 + doe / 36524 - doe / 146096) / 365)%Z in
  let y := (yoe + era * 400)%Z in
  let doy := (doe - (365 * yoe + yoe / 4 - yoe / 100))%Z in
  let mp := ((5 * doy + 2) / 153)%Z in
  let d := (doy - (153 * mp + 2) / 5 + 1)%Z in
  let m := (if mp <? 10 then mp + 3 else mp - 9)%Z in
  ((if m <=? 2 then y + 1 else y)%Z, m, d).

Definition year_text (y : Z) : string :=
  if ((0 <=? y) && (y <=? 9999))%Z then pad_nat 4 y
  else if (y <? 0)%Z then "-" ++ pad_nat 6 (- y)%Z
  else "+" ++ pad_nat 6 y.

Definition format (ms : Z) : string :=
  let days := (ms / msPerDay)%Z in
  let t := (ms mod msPerDay)%Z in
  let '(y, m, d) := civil days in
  year_text y ++ "-" ++ pad_nat 2 m ++ "-" ++ pad_nat 2 d ++ "T"
    ++ pad_nat 2 (t / 3600000)%Z ++ ":" ++ pad_nat 2 ((t / 60000) mod 60)%Z
    ++ ":" ++ pad_nat 2 ((t / 1000) mod 60)%Z ++ "." ++ pad_nat 3 (t mod 1000)%Z
    ++ "Z".

End Iso.

(** [Date.prototype.toISOString]: throws a RangeError on an invalid date. *)
Definition toISOString (d : Date) : result string :=
  match d with
  | TimeValue ms =>
      if (Z.abs ms <=? Iso.maxTime)%Z then Ok (Iso.format ms)
      else Throw (RangeError "Invalid time value")
  | InvalidDate => Throw (RangeError "Invalid time value")
  end.

(** ** sql.ts: raw expressions and identifier quoting *)

Record SQLExpression : Type := sql { expression : string }.

Definition SQLExpression_toSQL (e : SQLExpression) : string := expression e.

Definition escapeIdentifier (identifier : string) : string :=
  if Str.has_special identifier then
    Str.of_char Str.dquote
      ++ Str.replaceAll Str.dquote (String Str.dquote (Str.of_char Str.dquote))
           identifier
      ++ Str.of_char Str.dquote
  else identifier.

(** ** The condition tree

    The declarations of types.ts are not among the sources; the types below
    are read off the object literals and the annotations of the functions
    that build and inspect the values.

    A condition is a tagged object that carries, besides its fields, the
    closure [toSQL] built by whoever constructed it.  The closures of the
    sources are pure, so the embedding stores what the closure returns (or
    throws) when it is called. *)

Inductive ComparisonOperator : Type :=
| op_eq | op_neq | op_gt | op_gte | op_lt | op_lte.
Inductive PatternOperator : Type := op_like | op_ilike.
Inductive MembershipOperator : Type := op_in | op_contains.
Inductive LogicalOperator : Type := AND | OR.
Inductive NullValue : Type := null_ | not_null.

(** Modelled from the spec: the missing declaration of SessionVariableType;
    section 6 lists text, integer, uuid, boolean and timestamp, and
    [session.get] tests for the last four. *)
Inductive SessionVariableType : Type :=
| ty_text | ty_integer | ty_uuid | ty_boolean | ty_timestamp.

Inductive JoinType : Type := inner | left_ | right_ | full.

Inductive Select : Type :=
| SelectColumn (column : string)
| SelectColumns (columns : list string).

(** The [contextType] of a context leaf together with its extra fields. *)
Inductive ContextType : Type :=
| auth_uid
| session_ (key : string) (sessionType : SessionVariableType)
| current_user.

(** A runtime value as [escapeValue] distinguishes them.  [VCondition] is
    any object with a [toSQL] member.  [VOther] is any value of none of the
    listed shapes ([undefined], a plain object, a subquery builder, ...)
    given by what [String(value)] does with it: the text it returns, or the
    TypeError it throws when the value cannot be converted (an object
    without prototype, an object whose [toString] throws).  Values are
    finite trees: an array that contains itself is not among them. *)
Inductive Value_ (C : Type) : Type :=
| VNull
| VBoolean (b : bool)
| VNumber (n : JsNumber)
| VDate (d : Date)
| VSQLExpression (e : SQLExpression)
| VArray (items : list (Value_ C))
| VString (s : string)
| VCondition (c : C)
| VOther (shown : result string).

Arguments VNull {C}.
Arguments VBoolean {C} b.
Arguments VNumber {C} n.
Arguments VDate {C} d.
Arguments VSQLExpression {C} e.
Arguments VArray {C} items.
Arguments VString {C} s.
Arguments VOther {C} shown.

(** An entry of the builder's private [_joins] array; the same four fields
    make a [JoinDefinition]. *)
Record Join_ (C : Type) : Type := mkJoin {
  join_table : string;
  join_alias : option string;
  join_on : C;
  join_type : option JoinType
}.

(** The private state of a [SubqueryBuilder]. *)
Record SubqueryBuilder_ (C : Type) : Type := mkSubqueryBuilder {
  _from : string;
  _fromAlias : option string;
  _select : Select;
  _where : option C;
  _joins : list (Join_ C)
}.

Inductive MembershipValue_ (C : Type) : Type :=
| MemberValue (v : Value_ C)
| MemberSubquery (b : SubqueryBuilder_ C).

Inductive Argument_ (C : Type) : Type :=
| ArgString (s : string)
| ArgCondition (c : C).

Arguments MemberValue {C} v.
Arguments MemberSubquery {C} b.
Arguments ArgString {C} s.
Arguments ArgCondition {C} c.
Arguments mkJoin {C}.
Arguments mkSubqueryBuilder {C}.

Inductive Condition : Type :=
| comparison (column : string) (operator : ComparisonOperator)
    (value : Value_ Condition) (toSQL_ : result string)
| pattern (column : string) (operator : PatternOperator) (pattern_ : string)
    (toSQL_ : result string)
| membership (column : string) (operator : MembershipOperator)
    (value : MembershipValue_ Condition) (toSQL_ : result string)
| null (column : string) (value : NullValue) (toSQL_ : result string)
| logical (operator : LogicalOperator) (conditions : list Condition)
    (toSQL_ : result string)
| helper (helperType : string) (params : list (string * string))
    (toSQL_ : result string)
| function (functionName : string) (arguments : list (Argument_ Condition))
    (toSQL_ : result string)
| context (contextType : ContextType) (toSQL_ : result string).

Definition Value : Type := Value_ Condition.
Definition Join : Type := Join_ Condition.
Definition SubqueryBuilder : Type := SubqueryBuilder_ Condition.
Definition MembershipValue : Type := MembershipValue_ Condition.
Definition Argument : Type := Argument_ Condition.

(** [cond.toSQL()] *)
Definition Condition_toSQL (cond : Condition) : result string :=
  match cond with
  | comparison _ _ _ r | pattern _ _ _ r | membership _ _ _ r | null _ _ r
  | logical _ _ r | helper _ _ r | function _ _ r | context _ r => r
  end.

Record SubqueryDefinition : Type := mkSubqueryDefinition {
  sq_from : string;
  sq_select : Select;
  sq_alias : option string;
  sq_where : option Condition;
  sq_join : option Join
}.

(** ** sql.ts: literals *)

Fixpoint escapeValue (value : Value) : result string :=
  match value with
  | VNull => Ok "NULL"
  | VBoolean b => Ok (if b then "TRUE" else "FALSE")
  | VNumber n => Ok (String_number n)
  | VDate d => iso <- toISOString d ;; Ok ("'" ++ iso ++ "'::TIMESTAMP")
  | VSQLExpression e => Ok (SQLExpression_toSQL e)
  | VArray items =>
      escapedItems <-
        (fix map (l : list Value) : result (list string) :=
           match l with
           | [] => Ok []
           | item :: rest =>
               x <- escapeValue item ;; xs <- map rest ;; Ok (x :: xs)
           end) items ;;
      Ok ("ARRAY[" ++ Str.join ", " escapedItems ++ "]")
  | VString s => Ok ("'" ++ Str.replaceAll Str.squote "''" s ++ "'")
  | VCondition c => Condition_toSQL c
  | VOther shown => text <- shown ;; Ok ("'" ++ text ++ "'")
  end.

(** [items.map(f)] for an [f] that may throw: the first exception, in
    index order, is the outcome. *)
Fixpoint mapM {A B : Type} (f : A -> result B) (l : list A) : result (list B) :=
  match l with
  | [] => Ok []
  | item :: rest => x <- f item ;; xs <- mapM f rest ;; Ok (x :: xs)
  end.

Definition operatorMap (operator : ComparisonOperator) : string :=
  match operator with
  | op_eq => "="
  | op_neq => "!="
  | op_gt => ">"
  | op_gte => ">="
  | op_lt => "<"
  | op_lte => "<="
  end.

Definition createComparison (column : string) (operator : ComparisonOperator)
    (value : Value) : Condition :=
  comparison column operator value
    (v <- escapeValue value ;;
     Ok (escapeIdentifier column ++ " " ++ operatorMap operator ++ " " ++ v)).

Definition JoinType_text (t : JoinType) : string :=
  match t with
  | inner => "inner"
  | left_ => "left"
  | right_ => "right"
  | full => "full"
  end.

Definition subqueryToSQL (subquery : SubqueryDefinition) : result string :=
  let from := escapeIdentifier (sq_from subquery) in
  let alias :=
    if_truthy (sq_alias subquery) (fun a => " " ++ escapeIdentifier a)
      EmptyString in
  let select :=
    match sq_select subquery with
    | SelectColumns cols => Str.join ", " (map escapeIdentifier cols)
    | SelectColumn col => escapeIdentifier col
    end in
  let sql0 := "SELECT " ++ select ++ " FROM " ++ from ++ alias in
  sql1 <-
    match sq_join subquery with
    | Some j =>
        let joinType :=
          Str.toUpperCase
            (match join_type j with
             | Some t => JoinType_text t
             | None => "inner"
             end) in
        let joinTable := escapeIdentifier (join_table j) in
        let joinAlias :=
          if_truthy (join_alias j) (fun a => " " ++ escapeIdentifier a)
            EmptyString in
        on <- Condition_toSQL (join_on j) ;;
        Ok (sql0 ++ " " ++ joinType ++ " JOIN " ++ joinTable ++ joinAlias
              ++ " ON " ++ on)
    | None => Ok sql0
    end ;;
  sql2 <-
    match sq_where subquery with
    | Some w => w' <- Condition_toSQL w ;; Ok (sql1 ++ " WHERE " ++ w')
    | None => Ok sql1
    end ;;
  Ok ("(" ++ sql2 ++ ")").

(** ** context.ts *)

Module auth.
Definition uid : Condition := context auth_uid (Ok "auth.uid()").
End auth.

Module session.
Definition get (key : string) (type : SessionVariableType) : Condition :=
  context (session_ key type)
    (let typeCast :=
       match type with
       | ty_integer => "::INTEGER"
       | ty_uuid => "::UUID"
       | ty_boolean => "::BOOLEAN"
       | ty_timestamp => "::TIMESTAMP"
       | ty_text => EmptyString
       end in
     Ok ("current_setting('" ++ key ++ "', true)" ++ typeCast)).
End session.

Definition currentUser : Condition := context current_user (Ok "current_user").

(** ** validation.ts *)

Definition extractTableFromColumn (columnRef : string) : option string :=
  let unquoted :=
    match Str.indexOf Str.dot 0 columnRef with
    | Some dotIndex =>
        if (0 <? dotIndex)%nat then Some (Str.substring 0 dotIndex columnRef)
        else None
    | None => None
    end in
  if Str.startsWith Str.dquote columnRef then
    match Str.indexOf Str.dquote 1 columnRef with
    | Some endQuote =>
        if ((0 <? endQuote)%nat
            && match String.get (endQuote + 1) columnRef with
               | Some c => Ascii.eqb c Str.dot
               | None => false
               end)%bool
        then Some (Str.substring 1 endQuote columnRef)
        else unquoted
    | None => unquoted
    end
  else unquoted.

(** A [Set<string>] is the list of its members in insertion order. *)
Definition Set_has (x : string) (s : list string) : bool :=
  existsb (String.eqb x) s.

Definition Set_add (x : string) (s : list string) : list string :=
  if Set_has x s then s else (s ++ [x])%list.

(** [const table = extractTableFromColumn(ref); if (table) tables.add(table)] *)
Definition add_table (ref : string) (tables : list string) : list string :=
  if_truthy (extractTableFromColumn ref) (fun table => Set_add table tables)
    tables.

Fixpoint traverse (cond : Condition) (tables : list string) : list string :=
  match cond with
  | comparison column _ value _ =>
      let tables := add_table column tables in
      match value with
      | VCondition c => traverse c tables
      | _ => tables
      end
  | pattern column _ _ _ => add_table column tables
  | null column _ _ => add_table column tables
  | logical _ conditions _ =>
      (fix forEach (l : list Condition) (tables : list string) :=
         match l with
         | [] => tables
         | c :: rest => forEach rest (traverse c tables)
         end) conditions tables
  | membership column _ _ _ =>
      if Str.is_empty column then tables else add_table column tables
  | helper _ params _ =>
      fold_left (fun tables value => add_table value tables)
        (map snd params) tables
  | function _ arguments _ =>
      (fix forEach (l : list Argument) (tables : list string) :=
         match l with
         | [] => tables
         | ArgString arg :: rest => forEach rest (add_table arg tables)
         | ArgCondition c :: rest => forEach rest (traverse c tables)
         end) arguments tables
  | context _ _ => tables
  end.

Definition extractTableReferences (condition : Condition) : list string :=
  traverse condition [].

Definition getAvailableTables (fromTable : string) (fromAlias : option string)
    (joins : list (string * option string)) : list string :=
  fold_left
    (fun tables join => Set_add (or_else (snd join) (fst join)) tables)
    joins (Set_add (or_else fromAlias fromTable) []).

Definition detectMissingJoins (condition : option Condition)
    (availableTables : list string) : list string :=
  match condition with
  | None => []
  | Some condition =>
      filter (fun table => negb (Set_has table availableTables))
        (extractTableReferences condition)
  end.

(** ** subquery-builder.ts *)

Definition validateTableReferences (condition : Condition) (from : string)
    (fromAlias : option string) (joins : list (string * option string))
    (allowedMissing : option string) : result unit :=
  let availableTables := getAvailableTables from fromAlias joins in
  let missing := detectMissingJoins (Some condition) availableTables in
  match missing with
  | [] => Ok tt
  | _ :: _ =>
      let filteredMissing :=
        if_truthy allowedMissing
          (fun allowed => filter (fun t => negb (String.eqb t allowed)) missing)
          missing in
      match filteredMissing with
      | [] => Ok tt
      | first :: _ =>
          if truthy allowedMissing then
            Throw (Error ("Join condition references unavailable table(s): "
                            ++ Str.join ", " filteredMissing))
          else
            Throw (Error ("Missing join(s) for table(s): "
                            ++ Str.join ", " filteredMissing ++ ". "
                            ++ "Add a join using .join('" ++ first
                            ++ "', ...) before calling .where()"))
      end
  end.

Record ConditionChain : Type := mkConditionChain { condition : Condition }.

Definition toCondition (this : ConditionChain) : Condition := condition this.

(** An argument of type [Condition | ConditionChain]. *)
Inductive ConditionLike : Type :=
| AsCondition (c : Condition)
| AsChain (ch : ConditionChain).

(** [x instanceof ConditionChain ? x.toCondition() : x] *)
Definition normalize (x : ConditionLike) : Condition :=
  match x with
  | AsChain ch => toCondition ch
  | AsCondition c => c
  end.

(** A method of the builder: its outcome and the builder afterwards. *)
Definition method (A : Type) : Type :=
  SubqueryBuilder -> result A * SubqueryBuilder.

Definition join_scope (j : Join) : string * option string :=
  (join_table j, join_alias j).

Definition from (table : string) (alias : option string) : SubqueryBuilder :=
  mkSubqueryBuilder table alias (SelectColumn "*") None [].

Definition select (columns : Select) : method unit :=
  fun this =>
    (Ok tt,
     mkSubqueryBuilder (_from this) (_fromAlias this) columns (_where this)
       (_joins this)).

Definition where_ (condition : ConditionLike) : method unit :=
  fun this =>
    let normalizedCondition := normalize condition in
    match
      validateTableReferences normalizedCondition (_from this)
        (_fromAlias this) (map join_scope (_joins this)) None
    with
    | Throw e => (Throw e, this)
    | Ok _ =>
        (Ok tt,
         mkSubqueryBuilder (_from this) (_fromAlias this) (_select this)
           (Some normalizedCondition) (_joins this))
    end.

Definition join (table : string) (on : ConditionLike)
    (type : option JoinType) (alias : option string) : method unit :=
  fun this =>
    let normalizedOn := normalize on in
    match
      validateTableReferences normalizedOn (_from this) (_fromAlias this)
        (map join_scope (_joins this)) (Some (or_else alias table))
    with
    | Throw e => (Throw e, this)
    | Ok _ =>
        (Ok tt,
         mkSubqueryBuilder (_from this) (_fromAlias this) (_select this)
           (_where this)
           (_joins this
              ++ [mkJoin table alias normalizedOn
                    (Some match type with Some t => t | None => inner end)])%list)
    end.

Definition toSubquery (this : SubqueryBuilder) : SubqueryDefinition :=
  mkSubqueryDefinition (_from this) (_select this)
    (if truthy (_fromAlias this) then _fromAlias this else None)
    (_where this)
    (match _joins this with
     | [] => None
     | join :: _ =>
         Some (mkJoin (join_table join) (join_alias join) (join_on join)
                 (join_type join))
     end).

(** ** column.ts: chaining *)

Definition LogicalOperator_eqb (a b : LogicalOperator) : bool :=
  match a, b with
  | AND, AND | OR, OR => true
  | _, _ => false
  end.

Definition LogicalOperator_text (operator : LogicalOperator) : string :=
  match operator with
  | AND => "AND"
  | OR => "OR"
  end.

Definition flattenConditions (left right : Condition)
    (operator : LogicalOperator) : list Condition :=
  let leftConditions :=
    match left with
    | logical op conditions _ =>
        if LogicalOperator_eqb op operator then conditions else [left]
    | _ => [left]
    end in
  let rightConditions :=
    match right with
    | logical op conditions _ =>
        if LogicalOperator_eqb op operator then conditions else [right]
    | _ => [right]
    end in
  (leftConditions ++ rightConditions)%list.

(** The [toSQL] closure of a logical node over its children. *)
Definition logical_toSQL (operator : LogicalOperator)
    (flattened : list Condition) : result string :=
  parts <- mapM Condition_toSQL flattened ;;
  Ok ("(" ++ Str.join (" " ++ LogicalOperator_text operator ++ " ") parts
        ++ ")").

Definition chainWith (this : ConditionChain) (other : ConditionLike)
    (operator : LogicalOperator) : ConditionChain :=
  let otherCondition := normalize other in
  let flattened :=
    flattenConditions (condition this) otherCondition operator in
  mkConditionChain
    (logical operator flattened (logical_toSQL operator flattened)).

Definition and_ (this : ConditionChain) (other : ConditionLike) : ConditionChain :=
  chainWith this other AND.

Definition or_ (this : ConditionChain) (other : ConditionLike) : ConditionChain :=
  chainWith this other OR.

Definition ConditionChain_toSQL (this : ConditionChain) : result string :=
  Condition_toSQL (condition this).

(** ** column.ts: the column builder *)

Record ColumnBuilder : Type := column { columnName : string }.

(** An argument of type [value | ConditionChain]. *)
Inductive ValueLike : Type :=
| AsValue (v : Value)
| AsValueChain (ch : ConditionChain).

Definition normalizeValue (value : ValueLike) : Value :=
  match value with
  | AsValueChain ch => VCondition (toCondition ch)
  | AsValue v => v
  end.

Definition compare (operator : ComparisonOperator) (this : ColumnBuilder)
    (value : ValueLike) : ConditionChain :=
  mkConditionChain
    (createComparison (columnName this) operator (normalizeValue value)).

Definition eq_ := compare op_eq.
Definition neq := compare op_neq.
Definition gt := compare op_gt.
Definition gte := compare op_gte.
Definition lt := compare op_lt.
Definition lte := compare op_lte.

Definition like (this : ColumnBuilder) (pattern_ : string) : ConditionChain :=
  let colName := columnName this in
  mkConditionChain
    (pattern colName op_like pattern_
       (p <- escapeValue (VString pattern_) ;;
        Ok (escapeIdentifier colName ++ " LIKE " ++ p))).

Definition ilike (this : ColumnBuilder) (pattern_ : string) : ConditionChain :=
  let colName := columnName this in
  mkConditionChain
    (pattern colName op_ilike pattern_
       (p <- escapeValue (VString pattern_) ;;
        Ok (escapeIdentifier colName ++ " ILIKE " ++ p))).

(** The argument of [in]: a literal array or a subquery builder.  The
    builder is rendered as it is when it is handed over. *)
Inductive InValues : Type :=
| InArray (values : list Value)
| InSubquery (values : SubqueryBuilder).

Definition in_ (this : ColumnBuilder) (values : InValues) : ConditionChain :=
  let colName := columnName this in
  mkConditionChain
    match values with
    | InArray items =>
        membership colName op_in (MemberValue (VArray items))
          (escaped <- mapM escapeValue items ;;
           let valuesList := Str.join ", " escaped in
           Ok (escapeIdentifier colName ++ " IN (" ++ valuesList ++ ")"))
    | InSubquery builder =>
        membership colName op_in (MemberSubquery builder)
          (sub <- subqueryToSQL (toSubquery builder) ;;
           Ok (escapeIdentifier colName ++ " IN " ++ sub))
    end.

Definition contains (this : ColumnBuilder) (value : Value) : ConditionChain :=
  let colName := columnName this in
  mkConditionChain
    (membership colName op_contains (MemberValue value)
       (v <- escapeValue value ;;
        Ok (escapeIdentifier colName ++ " @> " ++ v))).

Definition isNull (this : ColumnBuilder) : ConditionChain :=
  let colName := columnName this in
  mkConditionChain
    (null colName null_ (Ok (escapeIdentifier colName ++ " IS NULL"))).

Definition isNotNull (this : ColumnBuilder) : ConditionChain :=
  let colName := columnName this in
  mkConditionChain
    (null colName not_null (Ok (escapeIdentifier colName ++ " IS NOT NULL"))).

Definition isOwner (this : ColumnBuilder) : ConditionChain :=
  eq_ this (AsValue (VCondition auth.uid)).

Definition isPublic (this : ColumnBuilder) : ConditionChain :=
  eq_ this (AsValue (VBoolean true)).

Definition belongsToTenant (this : ColumnBuilder) (sessionKey : option string)
  : ConditionChain :=
  let sessionKey :=
    match sessionKey with Some k => k | None => "app.current_tenant_id" end in
  eq_ this (AsValue (VCondition (session.get sessionKey ty_integer))).

Definition indent (n : nat) : string :=
  Str.newline ++ String.concat EmptyString (repeat " " n).

Definition isMemberOf (this : ColumnBuilder) (joinTable foreignKey : string)
    (localKey : option string) : ConditionChain :=
  let localKey := match localKey with Some k => k | None => "id" end in
  mkConditionChain
    (helper "isMemberOf"
       [("joinTable", joinTable); ("foreignKey", foreignKey);
        ("localKey", localKey)]
       (uid <- Condition_toSQL auth.uid ;;
        Ok (escapeIdentifier localKey ++ " IN ("
              ++ indent 10 ++ "SELECT " ++ escapeIdentifier foreignKey
              ++ indent 10 ++ "FROM " ++ escapeIdentifier joinTable
              ++ indent 10 ++ "WHERE " ++ escapeIdentifier "user_id" ++ " = "
              ++ uid
              ++ indent 8 ++ ")"))).

Definition userBelongsTo (this : ColumnBuilder) (membershipTable : string)
    (membershipColumn : option string) : result ConditionChain :=
  let colName := columnName this in
  let selectColumn := or_else membershipColumn colName in
  let b0 := from membershipTable None in
  let b1 := snd (select (SelectColumn selectColumn) b0) in
  let '(r, b2) :=
    where_ (AsChain (eq_ (column "user_id") (AsValue (VCondition auth.uid))))
      b1 in
  _ <- r ;; Ok (in_ this (InSubquery b2)).

(** [new Date()] is the parameter [now]. *)
Definition releasedBefore (now : Date) (this : ColumnBuilder)
    (referenceDate : option Date) : ConditionChain :=
  let date := match referenceDate with Some d => d | None => now end in
  lte this (AsValue (VDate date)).

Definition hasRole (role : string) (userRolesTable : option string)
  : ConditionChain :=
  let userRolesTable :=
    match userRolesTable with Some t => t | None => "user_roles" end in
  mkConditionChain
    (helper "hasRole" [("role", role); ("userRolesTable", userRolesTable)]
       (uid <- Condition_toSQL auth.uid ;;
        r <- escapeValue (VString role) ;;
        Ok ("EXISTS ("
              ++ indent 8 ++ "SELECT 1"
              ++ indent 8 ++ "FROM " ++ escapeIdentifier userRolesTable
              ++ indent 8 ++ "WHERE " ++ escapeIdentifier "user_id" ++ " = "
              ++ uid
              ++ indent 8 ++ "AND " ++ escapeIdentifier "role" ++ " = " ++ r
              ++ indent 6 ++ ")"))).

Definition alwaysTrue : ConditionChain :=
  mkConditionChain (helper "alwaysTrue" [] (Ok "true")).

(** An argument of [call]: a string, a condition or a chain. *)
Inductive CallArgument : Type :=
| CallString (s : string)
| CallCondition (c : ConditionLike).

Definition call (functionName : string) (args : list CallArgument)
  : ConditionChain :=
  let normalizedArgs :=
    map (fun arg =>
           match arg with
           | CallCondition c => ArgCondition (normalize c)
           | CallString s => ArgString s
           end) args in
  mkConditionChain
    (function functionName normalizedArgs
       (rendered <-
          mapM (fun arg : Argument =>
                  match arg with
                  | ArgString s => Ok (escapeIdentifier s)
                  | ArgCondition c => Condition_toSQL c
                  end) normalizedArgs ;;
        let argsList := Str.join ", " rendered in
        Ok (escapeIdentifier functionName ++ "(" ++ argsList ++ ")"))).

(** ** The policy builder

    The builder's source file (policy-builder.ts) is not among the sources;
    the definitions of this module follow section 4.5 of the specification.
    The index-suggestion pass of [toSQL] is left out. *)

Module Policy.

(** Modelled from the spec: the operation of a PolicyDefinition, whose
    declaration (types.ts) is missing. *)
Inductive Operation : Type := SELECT | INSERT | UPDATE | DELETE | ALL.

(** Modelled from the spec: the PolicyDefinition held by the missing
    PolicyBuilder class, once [on] and [for] have been called: name,
    target table, operation, optional role, optional USING and WITH CHECK
    conditions, restrictive flag, optional description. *)
Record PolicyBuilder : Type := mkPolicy {
  name : string;
  table : string;
  operation : Operation;
  role : option string;
  using_ : option Condition;
  withCheck_ : option Condition;
  isRestrictive : bool;
  description_ : option string
}.

(** Modelled from the spec: the first two states of the missing
    PolicyBuilder, [createPolicy(name)] and [.on(table)]. *)
Record Named : Type := createPolicy { named : string }.
Record Targeted : Type := mkTargeted { target_name : string; target : string }.

(** Modelled from the spec: [.on(table)] of the missing PolicyBuilder. *)
Definition on (table : string) (this : Named) : Targeted :=
  mkTargeted (named this) table.

(** Modelled from the spec: [.for(operation)] of the missing PolicyBuilder;
    the policy starts permissive, with no role and no predicate. *)
Definition for_ (operation : Operation) (this : Targeted) : PolicyBuilder :=
  mkPolicy (target_name this) (target this) operation None None None false
    None.

(** Modelled from the spec: [.to(role)] of the missing PolicyBuilder. *)
Definition to (r : string) (this : PolicyBuilder) : PolicyBuilder :=
  mkPolicy (name this) (table this) (operation this) (Some r) (using_ this)
    (withCheck_ this) (isRestrictive this) (description_ this).

(** Modelled from the spec: [.when(cond)] of the missing PolicyBuilder
    sets USING. *)
Definition when (cond : ConditionLike) (this : PolicyBuilder) : PolicyBuilder :=
  mkPolicy (name this) (table this) (operation this) (role this)
    (Some (normalize cond)) (withCheck_ this) (isRestrictive this)
    (description_ this).

(** Modelled from the spec: [.withCheck(cond)] of the missing PolicyBuilder
    sets WITH CHECK. *)
Definition withCheck (cond : ConditionLike) (this : PolicyBuilder)
  : PolicyBuilder :=
  mkPolicy (name this) (table this) (operation this) (role this)
    (using_ this) (Some (normalize cond)) (isRestrictive this)
    (description_ this).

(** Modelled from the spec: [.allow(cond)] of the missing PolicyBuilder
    derives the clause placement from the operation: INSERT gives WITH
    CHECK only; SELECT or DELETE give USING only; UPDATE and ALL give
    both, set to the same condition. *)
Definition allow (cond : ConditionLike) (this : PolicyBuilder) : PolicyBuilder :=
  match operation this with
  | INSERT => withCheck cond this
  | SELECT | DELETE => when cond this
  | UPDATE | ALL => withCheck cond (when cond this)
  end.

(** Modelled from the spec: [.restrictive()] of the missing PolicyBuilder. *)
Definition restrictive (this : PolicyBuilder) : PolicyBuilder :=
  mkPolicy (name this) (table this) (operation this) (role this)
    (using_ this) (withCheck_ this) true (description_ this).

(** Modelled from the spec: [.description(text)] of the missing
    PolicyBuilder. *)
Definition description (text : string) (this : PolicyBuilder) : PolicyBuilder :=
  mkPolicy (name this) (table this) (operation this) (role this)
    (using_ this) (withCheck_ this) (isRestrictive this) (Some text).

(** Modelled from the spec: the operation keyword that the missing
    [toSQL] prints after FOR. *)
Definition Operation_text (o : Operation) : string :=
  match o with
  | SELECT => "SELECT"
  | INSERT => "INSERT"
  | UPDATE => "UPDATE"
  | DELETE => "DELETE"
  | ALL => "ALL"
  end.

Definition quoted (s : string) : string :=
  Str.of_char Str.dquote ++ s ++ Str.of_char Str.dquote.

(** Modelled from the spec: the part of the missing [toSQL] before the
    predicates, CREATE POLICY <name> ON <table> [AS RESTRICTIVE]
    FOR <OPERATION> [TO <role>], the name and the table in double quotes. *)
Definition header (this : PolicyBuilder) : string :=
  "CREATE POLICY " ++ quoted (name this) ++ " ON " ++ quoted (table this)
    ++ (if isRestrictive this then " AS RESTRICTIVE" else EmptyString)
    ++ " FOR " ++ Operation_text (operation this)
    ++ match role this with
       | Some r => " TO " ++ r
       | None => EmptyString
       end.

(** Modelled from the spec: one optional clause of the missing [toSQL],
    the keyword and the parenthesized condition, or nothing when the
    clause was never set. *)
Definition clause (keyword : string) (cond : option Condition) : result string :=
  match cond with
  | Some c => text <- Condition_toSQL c ;; Ok (" " ++ keyword ++ " (" ++ text ++ ")")
  | None => Ok EmptyString
  end.

(** Modelled from the spec: [toSQL()] of the missing PolicyBuilder,
    without options.  It fails when neither USING nor WITH CHECK was ever
    set; the spec does not fix the text of the error. *)
Definition toSQL (this : PolicyBuilder) : result string :=
  match using_ this, withCheck_ this with
  | None, None =>
      Throw (Error "Policy must have at least one of USING or WITH CHECK")
  | _, _ =>
      u <- clause "USING" (using_ this) ;;
      w <- clause "WITH CHECK" (withCheck_ this) ;;
      Ok (header this ++ u ++ w)
  end.

(** Modelled from the spec: the optional steps of the missing builder
    chain that may follow [for]. *)
Inductive Step : Type :=
| step_to (r : string)
| step_when (cond : ConditionLike)
| step_withCheck (cond : ConditionLike)
| step_allow (cond : ConditionLike)
| step_restrictive
| step_description (text : string).

Definition step (this : PolicyBuilder) (s : Step) : PolicyBuilder :=
  match s with
  | step_to r => to r this
  | step_when c => when c this
  | step_withCheck c => withCheck c this
  | step_allow c => allow c this
  | step_restrictive => restrictive this
  | step_description t => description t this
  end.

Definition sets_predicate (s : Step) : bool :=
  match s with
  | step_when _ | step_withCheck _ | step_allow _ => true
  | _ => false
  end.

(** The builder after a chain of calls, applied left to right. *)
Definition chain (steps : list Step) (this : PolicyBuilder) : PolicyBuilder :=
  fold_left step steps this.

End Policy.

(** ** Reading quoted tokens back

    PostgreSQL's lexer for a quoted token: a string literal between single
    quotes, a delimited identifier between double quotes.  Inside the token
    a doubled quote stands for one quote character; a single one ends it. *)

Module Lex.

(** The rest of a quoted token after its opening quote: the text it
    denotes and the input that follows its closing quote. *)
Fixpoint read_body (q : ascii) (s : string) : option (string * string) :=
  match s with
  | EmptyString => None
  | String a rest =>
      if Ascii.eqb a q then
        match rest with
        | String b rest' =>
            if Ascii.eqb b q then
              match read_body q rest' with
              | Some (text, after) => Some (String q text, after)
              | None => None
              end
            else Some (EmptyString, rest)
        | EmptyString => Some (EmptyString, EmptyString)
        end
      else
        match read_body q rest with
        | Some (text, after) => Some (String a text, after)
        | None => None
        end
  end.

Definition read_quoted (q : ascii) (s : string) : option (string * string) :=
  match s with
  | String a rest => if Ascii.eqb a q then read_body q rest else None
  | EmptyString => None
  end.

(** A name matching [A-Za-z0-9_]+. *)
Definition unquoted_name (s : string) : bool :=
  negb (Str.is_empty s) && negb (Str.has_special s).

(** One double-quoted segment and nothing after it. *)
Definition quoted_segment (s : string) : bool :=
  match read_quoted Str.dquote s with
  | Some (_, EmptyString) => true
  | _ => false
  end.

Definition identifier_token (s : string) : bool :=
  unquoted_name s || quoted_segment s.

End Lex.

(** Which values [escapeValue] can render: every date in them is a valid
    date, every condition in them renders and every value of another shape
    in them has a text. *)
Fixpoint renderable (value : Value) : bool :=
  match value with
  | VDate d => returns (toISOString d)
  | VArray items =>
      (fix all (l : list Value) : bool :=
         match l with
         | [] => true
         | item :: rest => renderable item && all rest
         end) items
  | VCondition c => returns (Condition_toSQL c)
  | VOther shown => returns shown
  | _ => true
  end.

(** The children of a logical node. *)
Definition children (c : Condition) : list Condition :=
  match c with
  | logical _ conditions _ => conditions
  | _ => []
  end.

(** Whether a condition is a logical node with the given operator. *)
Definition is_logical (operator : LogicalOperator) (c : Condition) : bool :=
  match c with
  | logical op _ _ => LogicalOperator_eqb op operator
  | _ => false
  end.

(** What an operand contributes to a chain with the given operator: its
    children when it is a logical node with that operator, itself
    otherwise. *)
Definition operands (operator : LogicalOperator) (c : Condition)
  : list Condition :=
  if is_logical operator c then children c else [c].

(** A builder that holds one join:
    from('projects', 'p').join('members', m.project_id = 1, 'inner', 'm'). *)
Definition one_join_builder : SubqueryBuilder :=
  snd (join "members"
         (AsChain (eq_ (column "m.project_id") (AsValue (VNumber (Number 1)))))
         (Some inner) (Some "m") (from "projects" (Some "p"))).

(** ** Policy groups (the composition module)

    [PolicyBuilder] and its [toSQL] come from policy-builder.ts and the
    generation options from types.ts, which are not among the sources: the
    group functions take them as parameters. *)

Section PolicyGroups.

Variable PolicyBuilder : Type.
Variable SQLGenerationOptions : Type.
Variable PolicyBuilder_toSQL :
  PolicyBuilder -> option SQLGenerationOptions -> result string.

Record PolicyGroup : Type := mkPolicyGroup {
  group_name : string;
  group_policies : list PolicyBuilder;
  group_description : option string
}.

Definition createPolicyGroup (name : string) (policies : list PolicyBuilder)
    (description : option string) : PolicyGroup :=
  mkPolicyGroup name policies description.

(** The separator of the statements of a group: a semicolon and two
    newlines. *)
Definition statement_separator : string :=
  ";" ++ Str.newline ++ Str.newline.

Definition policyGroupToSQL (group : PolicyGroup)
    (options : option SQLGenerationOptions) : result string :=
  policySQLs <-
    mapM (fun p => PolicyBuilder_toSQL p options) (group_policies group) ;;
  Ok (if_truthy (group_description group)
        (fun description =>
           "-- " ++ description ++ Str.newline
             ++ Str.join statement_separator policySQLs ++ ";")
        (Str.join statement_separator policySQLs ++ ";")).

End PolicyGroups.

(** ** Shape of the trees that chaining builds *)

(** Every logical node of the tree has at least two children, none of which
    is a logical node with the operator of its parent. *)
Fixpoint well_flattened (c : Condition) : bool :=
  match c with
  | logical operator conditions _ =>
      (2 <=? List.length conditions)%nat
      && (fix all (l : list Condition) : bool :=
            match l with
            | [] => true
            | child :: rest =>
                negb (is_logical operator child) && well_flattened child
                && all rest
            end) conditions
  | _ => true
  end.

(** What the walk keeps true of the set it fills: no member twice, no empty
    name, and the members already there stay in front, in their order. *)
Definition grows (before after : list string) : Prop :=
  (NoDup before -> NoDup after)
  /\ (~ In EmptyString before -> ~ In EmptyString after)
  /\ exists extra, after = (before ++ extra)%list.

(** ** The column references of a condition *)

(** The references that a condition makes to columns, in reading order,
    depth first and left to right: the column of a comparison and then the
    references of the condition it is compared with; the column of a
    pattern, a null check or a membership; the references of the children
    of a logical node, child after child; the string parameters of a
    helper; the string arguments of a function call and the references of
    its condition arguments, argument after argument.  A context leaf makes
    none. *)
Fixpoint column_references (c : Condition) : list string :=
  match c with
  | comparison col _ value _ =>
      col ::
        match value with
        | VCondition nested => column_references nested
        | _ => []
        end
  | pattern col _ _ _ => [col]
  | membership col _ _ _ => [col]
  | null col _ _ => [col]
  | logical _ conditions _ =>
      (fix each (l : list Condition) : list string :=
         match l with
         | [] => []
         | child :: rest => (column_references child ++ each rest)%list
         end) conditions
  | helper _ params _ => map snd params
  | function _ arguments _ =>
      (fix each (l : list Argument) : list string :=
         match l with
         | [] => []
         | ArgString s :: rest => s :: each rest
         | ArgCondition nested :: rest =>
             (column_references nested ++ each rest)%list
         end) arguments
  | context _ _ => []
  end.

(** A reference written qualifier.column: the qualifier is not empty, has
    no dot and does not start with a double quote. *)
Definition plain_qualifier (qualifier ref : string) : Prop :=
  exists col,
    ref = qualifier ++ String Str.dot col
    /\ qualifier <> EmptyString
    /\ Str.indexOf Str.dot 0 qualifier = None
    /\ Str.startsWith Str.dquote qualifier = false.

(** A reference written with the qualifier between double quotes and then
    a dot and the column: the qualifier is not empty and has no double
    quote. *)
Definition quoted_qualifier (qualifier ref : string) : Prop :=
  exists col,
    ref = String Str.dquote
            (qualifier ++ String Str.dquote (String Str.dot col))
    /\ qualifier <> EmptyString
    /\ Str.indexOf Str.dquote 0 qualifier = None.

Definition qualified_by (qualifier ref : string) : Prop :=
  plain_qualifier qualifier ref \/ quoted_qualifier qualifier ref.

(** The condition has a column reference that carries the qualifier. *)
Definition mentions (qualifier : string) (c : Condition) : Prop :=
  exists ref, In ref (column_references c) /\ qualified_by qualifier ref.

(** The table that the validator takes from a reference: none when
    [extractTableFromColumn] finds none or finds the empty name. *)
Definition table_of (ref : string) : list string :=
  if_truthy (extractTableFromColumn ref) (fun table => [table]) [].

(** A list without its repetitions: each member once, at the place of its
    first occurrence. *)
Fixpoint first_seen (l : list string) : list string :=
  match l with
  | [] => []
  | x :: rest => x :: filter (fun y => negb (String.eqb y x)) (first_seen rest)
  end.

(** What [String(Object.create(null))] throws. *)
Definition object_without_prototype : JsError :=
  TypeError "Cannot convert object to primitive value".

(** A condition whose rendering throws. *)
Definition throwing_condition (message : string) : Condition :=
  helper "custom" [] (Throw (Error message)).

(** * Properties *)

(** ** Strings and the result monad *)

Lemma append_nil_r (s : string) : s ++ EmptyString = s.
Proof. induction s as [|a s IH]; simpl; [reflexivity | now rewrite IH]. Qed.

Lemma append_assoc (a b c : string) : (a ++ b) ++ c = a ++ (b ++ c).
Proof. induction a as [|x a IH]; simpl; [reflexivity | now rewrite IH]. Qed.

Lemma returns_Ok {A : Type} (m : result A) :
  returns m = true -> exists a, m = Ok a.
Proof. destruct m as [a|e]; simpl; [eauto | discriminate]. Qed.

Lemma escapeValue_array (items : list Value) :
  escapeValue (VArray items) =
  (escapedItems <- mapM escapeValue items ;;
   Ok ("ARRAY[" ++ Str.join ", " escapedItems ++ "]")).
Proof.
  cbn [escapeValue]. f_equal.
  induction items as [|item rest IH]; cbn [mapM]; [reflexivity|].
  now rewrite IH.
Qed.

(** ** Quoting is read back exactly *)

Section Quoting.

Variable q : ascii.

Let doubled : string := String q (String q EmptyString).

Lemma read_body_escaped (s after : string) :
  Str.startsWith q after = false ->
  Lex.read_body q (Str.replaceAll q doubled s ++ String q after)
  = Some (s, after).
Proof.
  intros Hafter. induction s as [|a s IH].
  - simpl. rewrite Ascii.eqb_refl.
    destruct after as [|b after']; [reflexivity|].
    simpl in Hafter. now rewrite Hafter.
  - cbn [Str.replaceAll]. destruct (Ascii.eqb a q) eqn:E.
    + apply Ascii.eqb_eq in E. subst a. unfold doubled.
      cbn [append Lex.read_body]. rewrite Ascii.eqb_refl.
      fold doubled. now rewrite IH.
    + cbn [append Lex.read_body]. rewrite E. now rewrite IH.
Qed.

Lemma read_quoted_escaped (s after : string) :
  Str.startsWith q after = false ->
  Lex.read_quoted q (String q (Str.replaceAll q doubled s ++ String q after))
  = Some (s, after).
Proof.
  intros H. cbn [Lex.read_quoted]. rewrite Ascii.eqb_refl.
  now apply read_body_escaped.
Qed.

End Quoting.

(** ** Induction on values, through the arrays they nest *)

Section Value_induction.

Variable P : Value -> Prop.

Hypothesis P_null : P VNull.
Hypothesis P_boolean : forall b, P (VBoolean b).
Hypothesis P_number : forall n, P (VNumber n).
Hypothesis P_date : forall d, P (VDate d).
Hypothesis P_sql : forall e, P (VSQLExpression e).
Hypothesis P_array : forall items, Forall P items -> P (VArray items).
Hypothesis P_string : forall s, P (VString s).
Hypothesis P_condition : forall c, P (VCondition c).
Hypothesis P_other : forall shown, P (VOther shown).

Lemma Value_nested_ind : forall v : Value, P v.
Proof.
  fix IH 1.
  intros [ | b | n | d | e | items | s | c | text ];
    [ exact P_null | apply P_boolean | apply P_number | apply P_date
    | apply P_sql | | apply P_string | apply P_condition | apply P_other ].
  apply P_array.
  induction items as [|item rest IHrest]; constructor;
    [ apply IH | exact IHrest ].
Qed.

End Value_induction.

Lemma renderable_array (items : list Value) :
  renderable (VArray items) = forallb renderable items.
Proof.
  cbn [renderable].
  induction items as [|item rest IH]; [reflexivity|].
  cbn [forallb]. now rewrite IH.
Qed.

Lemma mapM_returns {A B : Type} (f : A -> result B) (l : list A) :
  returns (mapM f l) = forallb (fun x => returns (f x)) l.
Proof.
  induction l as [|x l IH]; [reflexivity|].
  cbn [mapM forallb]. destruct (f x) as [y|e]; cbn; [|reflexivity].
  rewrite <- IH. now destruct (mapM f l).
Qed.

(** [escapeValue] throws exactly on the values that are not renderable. *)
Lemma escapeValue_returns (value : Value) :
  returns (escapeValue value) = renderable value.
Proof.
  induction value as [ | | | d | | items IH | | | shown ]
    using Value_nested_ind; try reflexivity.
  - cbn. now destruct (toISOString d).
  - rewrite escapeValue_array, renderable_array.
    transitivity (returns (mapM escapeValue items)).
    + now destruct (mapM escapeValue items).
    + rewrite mapM_returns.
      induction IH as [|item rest Hitem _ IHrest]; [reflexivity|].
      cbn [forallb]. now rewrite Hitem, IHrest.
  - cbn. now destruct shown.
Qed.

(** [String] on numbers: integers, a fraction, the magnitudes where the
    exponent notation starts, the signed zero, an integer that is not a
    double, and the largest double. *)
Example String_number_examples :
  String_number (Number 1) = "1"
  /\ String_number (Number (-120)) = "-120"
  /\ String_number (Finite false 3 (-1)) = "1.5"
  /\ String_number (Finite false 7205759403792794 (-56)) = "0.1"
  /\ String_number (Number 100000000000000000000) = "100000000000000000000"
  /\ String_number (Number 1000000000000000000000) = "1e+21"
  /\ String_number (Finite false 1 (-20)) = "9.5367431640625e-7"
  /\ String_number (Finite true 0 0) = "0"
  /\ String_number (Number 9007199254740993) = "9007199254740992"
  /\ String_number (Finite false 9007199254740991 971)
     = "1.7976931348623157e+308"
  /\ String_number (Finite false 1 1024) = "Infinity"
  /\ String_number (Infinity true) = "-Infinity".
Proof. repeat split; vm_compute; reflexivity. Qed.

(** ** Rendering of the leaves *)

(** C1.  The session-variable leaf puts its key between single quotes as it
    is, without going through [escapeValue]: for the key a'b the rendering is
    current_setting('a'b', true), whose string literal ends after the a, so
    that the rest of the key is read as SQL.  [escapeValue], which the
    sibling leaves use for their strings, renders the same key as 'a''b',
    which is read back as a'b. *)
Theorem session_get_embeds_raw_key :
  (forall key type,
      exists typeCast,
        Condition_toSQL (session.get key type)
        = Ok ("current_setting('" ++ key ++ "', true)" ++ typeCast))
  /\ Condition_toSQL (session.get "a'b" ty_text) = Ok "current_setting('a'b', true)"
  /\ Lex.read_quoted Str.squote "'a'b', true)" = Some ("a", "b', true)")
  /\ escapeValue (VString "a'b") = Ok "'a''b'"
  /\ Lex.read_quoted Str.squote ("'a''b'" ++ ", true)")
     = Some ("a'b", ", true)").
Proof.
  split; [|repeat split; reflexivity].
  intros key type. destruct type; eexists; reflexivity.
Qed.

(** C6, as the sources have it.  The condition
    column('user_id').eq(auth.uid()) renders the text user_id = auth.uid():
    the column name has no character outside [a-zA-Z0-9_], so
    [escapeIdentifier] leaves it without quotes, and the auth-context leaf
    renders as auth.uid(). *)
Theorem owner_comparison_renders_unquoted :
  ConditionChain_toSQL
    (eq_ (column "user_id") (AsValue (VCondition auth.uid)))
  = Ok "user_id = auth.uid()"
  /\ escapeIdentifier "user_id" = "user_id"
  /\ Condition_toSQL auth.uid = Ok "auth.uid()".
Proof. repeat split; reflexivity. Qed.

(** C6, counterexample.  The rendering is not the text with the column
    name between double quotes. *)
Lemma owner_comparison_not_quoted :
  ConditionChain_toSQL
    (eq_ (column "user_id") (AsValue (VCondition auth.uid)))
  <> Ok (Policy.quoted "user_id" ++ " = auth.uid()").
Proof. discriminate. Qed.

(** C10.  For every column name, [in] with the empty array is accepted and
    renders the escaped identifier followed by an empty parenthesized
    list. *)
Theorem in_empty_array_renders (c : string) :
  ConditionChain_toSQL (in_ (column c) (InArray []))
  = Ok (escapeIdentifier c ++ " IN ()")
  /\ condition (in_ (column c) (InArray []))
     = membership c op_in (MemberValue (VArray []))
         (Ok (escapeIdentifier c ++ " IN ()")).
Proof. split; reflexivity. Qed.

(** ** escapeValue *)

(** C7, as the sources have it.  On every value in which, at every depth,
    each date is a valid date, each object with a [toSQL] member renders
    and each value of no other shape has a [String] text, [escapeValue]
    returns, and what it returns is: NULL for null; TRUE or FALSE for a
    boolean; for a number the text that [String] gives it; the ISO-8601
    text of a date between single quotes, cast to TIMESTAMP; for an array,
    ARRAY[...] around the escaped items separated by a comma and a space;
    for a string, the string between single quotes with each single quote
    doubled, which reads back as the string; for a value of no other shape
    its [String] text between single quotes. *)
Theorem escapeValue_renders (value : Value) :
  renderable value = true ->
  exists text,
    escapeValue value = Ok text
    /\ match value with
       | VNull => text = "NULL"
       | VBoolean b => text = if b then "TRUE" else "FALSE"
       | VNumber n => text = String_number n
       | VDate d =>
           exists iso,
             toISOString d = Ok iso /\ text = "'" ++ iso ++ "'::TIMESTAMP"
       | VSQLExpression e => text = expression e
       | VArray items =>
           exists texts,
             mapM escapeValue items = Ok texts
             /\ Forall (fun item => renderable item = true) items
             /\ text = "ARRAY[" ++ Str.join ", " texts ++ "]"
       | VString s =>
           text = "'" ++ Str.replaceAll Str.squote "''" s ++ "'"
           /\ Lex.read_quoted Str.squote text = Some (s, EmptyString)
       | VCondition c => Condition_toSQL c = Ok text
       | VOther shown =>
           exists shown_text,
             shown = Ok shown_text /\ text = "'" ++ shown_text ++ "'"
       end.
Proof.
  intros Hr. rewrite <- escapeValue_returns in Hr.
  destruct (returns_Ok _ Hr) as [text Htext].
  exists text. split; [exact Htext|].
  destruct value as [ | b | n | d | e | items | s | c | shown ];
    [ | | | | | rewrite escapeValue_array in Htext | | | ];
    cbn in Htext; try (now injection Htext as <-).
  - destruct (toISOString d) as [iso|err]; [|discriminate].
    exists iso. split; [reflexivity|]. now injection Htext as <-.
  - destruct (mapM escapeValue items) as [texts|err] eqn:E; [|discriminate].
    exists texts. split; [reflexivity|]. split; [|now injection Htext as <-].
    apply Forall_forall. intros item Hin.
    rewrite escapeValue_returns, renderable_array in Hr.
    rewrite forallb_forall in Hr. now apply Hr.
  - injection Htext as <-. split; [reflexivity|].
    apply (read_quoted_escaped Str.squote s EmptyString). reflexivity.
  - exact Htext.
  - destruct shown as [shown_text|err]; [|discriminate].
    exists shown_text. split; [reflexivity|]. now injection Htext as <-.
Qed.

(** C7, witness: the array of the string a'b, the number 1 and null. *)
Lemma escapeValue_renders_witness :
  renderable (VArray [VString "a'b"; VNumber (Number 1); VNull]) = true
  /\ escapeValue (VArray [VString "a'b"; VNumber (Number 1); VNull])
     = Ok "ARRAY['a''b', 1, NULL]".
Proof.
  split; [reflexivity|].
  destruct (escapeValue_renders (VArray [VString "a'b"; VNumber (Number 1); VNull])
              eq_refl) as (text & Htext & texts & Htexts & _ & Heq).
  rewrite Htext. f_equal. rewrite Heq.
  cbn in Htexts. injection Htexts as <-. reflexivity.
Defined.

(** C7, counterexample.  [escapeValue] throws on an invalid date, alone or
    inside an array, and on an array that holds an object without
    prototype, which [String] cannot convert; and the text of the number
    NaN is NaN, not a decimal text. *)
Lemma escapeValue_can_throw :
  escapeValue (VDate InvalidDate) = Throw (RangeError "Invalid time value")
  /\ escapeValue (VArray [VNumber (Number 1); VDate InvalidDate])
     = Throw (RangeError "Invalid time value")
  /\ escapeValue (VArray [VOther (Throw object_without_prototype)])
     = Throw (TypeError "Cannot convert object to primitive value")
  /\ escapeValue (VNumber NaN) = Ok "NaN".
Proof. repeat split; reflexivity. Qed.

(** ** escapeIdentifier *)

(** C8, as the sources have it.  [escapeIdentifier] returns a name
    matching [A-Za-z0-9_]+ unchanged, so that applying it twice is the same
    as applying it once; and for every input other than the empty string its
    result is a single identifier token: a non-empty name without quotes, or
    one double-quoted segment with each embedded double quote doubled, which
    reads back as the input. *)
Theorem escapeIdentifier_token (n : string) :
  n <> EmptyString ->
  Lex.identifier_token (escapeIdentifier n) = true
  /\ (Lex.unquoted_name n = true ->
      escapeIdentifier n = n
      /\ escapeIdentifier (escapeIdentifier n) = escapeIdentifier n)
  /\ (Str.has_special n = true ->
      Lex.read_quoted Str.dquote (escapeIdentifier n) = Some (n, EmptyString)
      /\ Lex.quoted_segment (escapeIdentifier n) = true).
Proof.
  intros Hn.
  assert (Hq : Str.has_special n = true ->
               Lex.read_quoted Str.dquote (escapeIdentifier n)
               = Some (n, EmptyString)).
  { intros Hs. unfold escapeIdentifier. rewrite Hs.
    apply (read_quoted_escaped Str.dquote n EmptyString). reflexivity. }
  split; [|split].
  - unfold Lex.identifier_token.
    destruct (Str.has_special n) eqn:Hs.
    + unfold Lex.quoted_segment. rewrite (Hq eq_refl).
      apply orb_true_r.
    + unfold escapeIdentifier. rewrite Hs. unfold Lex.unquoted_name.
      rewrite Hs. destruct n; [contradiction|reflexivity].
  - unfold Lex.unquoted_name. intros H.
    apply andb_true_iff in H as [_ H]. apply negb_true_iff in H.
    unfold escapeIdentifier. now rewrite !H.
  - intros Hs. split; [now apply Hq|].
    unfold Lex.quoted_segment. now rewrite (Hq Hs).
Qed.

(** C8, witness: a name with a space and a double quote in it. *)
Lemma escapeIdentifier_token_witness :
  let n := "my " ++ Str.of_char Str.dquote ++ "col" in
  n <> EmptyString
  /\ Lex.identifier_token (escapeIdentifier n) = true
  /\ Lex.read_quoted Str.dquote (escapeIdentifier n) = Some (n, EmptyString).
Proof.
  intros n.
  assert (Hn : n <> EmptyString) by discriminate.
  split; [exact Hn|].
  destruct (escapeIdentifier_token Hn) as (Htoken & _ & Hquoted).
  split; [exact Htoken|]. exact (proj1 (Hquoted eq_refl)).
Defined.

(** C8, counterexample.  The empty string has no character outside
    [a-zA-Z0-9_], so [escapeIdentifier] returns it as it is: the result is
    empty, neither a non-empty name nor a double-quoted segment. *)
Lemma escapeIdentifier_empty_is_no_token :
  escapeIdentifier EmptyString = EmptyString
  /\ Lex.identifier_token (escapeIdentifier EmptyString) = false.
Proof. split; reflexivity. Qed.

(** ** Flattening of chains *)

Lemma flattenConditions_operands (left right : Condition)
    (operator : LogicalOperator) :
  flattenConditions left right operator
  = (operands operator left ++ operands operator right)%list.
Proof.
  unfold flattenConditions, operands, is_logical, children.
  destruct left, right; try reflexivity;
    repeat match goal with
           | |- context [LogicalOperator_eqb ?a ?b] =>
               destruct (LogicalOperator_eqb a b)
           end; reflexivity.
Qed.

(** C3, as the sources have it.  For conditions A, B and C none of which is
    itself a logical AND node, A.and(B).and(C) is one logical AND node whose
    children are A, B, C in this order.  In general [and] and [or] make a
    logical node whose children are the operands of the left side followed
    by those of the right side, where a side that is a logical node with
    the same operator contributes its children and any other side
    contributes itself. *)
Theorem and_chain_flattens (A : ConditionChain) (B C : ConditionLike) :
  is_logical AND (condition A) = false ->
  is_logical AND (normalize B) = false ->
  is_logical AND (normalize C) = false ->
  condition (and_ (and_ A B) C)
  = logical AND [condition A; normalize B; normalize C]
      (logical_toSQL AND [condition A; normalize B; normalize C])
  /\ forall (this : ConditionChain) (other : ConditionLike)
        (operator : LogicalOperator),
      condition (chainWith this other operator)
      = logical operator
          (operands operator (condition this)
             ++ operands operator (normalize other))%list
          (logical_toSQL operator
             (operands operator (condition this)
                ++ operands operator (normalize other))%list).
Proof.
  intros HA HB HC.
  assert (G : forall this other operator,
             condition (chainWith this other operator)
             = logical operator
                 (operands operator (condition this)
                    ++ operands operator (normalize other))%list
                 (logical_toSQL operator
                    (operands operator (condition this)
                       ++ operands operator (normalize other))%list)).
  { intros. unfold chainWith. cbn [condition].
    now rewrite flattenConditions_operands. }
  split; [|exact G].
  unfold and_. rewrite G, G. unfold operands.
  rewrite HA, HB, HC. reflexivity.
Qed.

(** C3, witness: three comparisons. *)
Lemma and_chain_flattens_witness :
  let A := eq_ (column "a") (AsValue (VNumber (Number 1))) in
  let B := AsChain (isNull (column "b")) in
  let C := AsChain (like (column "c") "x%") in
  children (condition (and_ (and_ A B) C))
  = [condition A; normalize B; normalize C]
  /\ ConditionChain_toSQL (and_ (and_ A B) C)
     = Ok "(a = 1 AND b IS NULL AND c LIKE 'x%')".
Proof.
  intros A B C.
  destruct (@and_chain_flattens A B C eq_refl eq_refl eq_refl) as [H _].
  unfold ConditionChain_toSQL. rewrite H. split; reflexivity.
Defined.

(** C3, counterexample.  When A is itself an AND node, here x.and(y), the
    chain A.and(B).and(C) has the four children x, y, B, C and not the
    three children A, B, C. *)
Lemma and_chain_splices_left_operand :
  let x := eq_ (column "x") (AsValue (VNumber (Number 1))) in
  let y := eq_ (column "y") (AsValue (VNumber (Number 2))) in
  let A := and_ x (AsChain y) in
  let B := AsChain (isNull (column "b")) in
  let C := AsChain (isNull (column "c")) in
  children (condition (and_ (and_ A B) C))
  = [condition x; condition y; normalize B; normalize C]
  /\ children (condition (and_ (and_ A B) C))
     <> [condition A; normalize B; normalize C].
Proof. cbv zeta. split; [reflexivity | discriminate]. Qed.

(** ** Table references *)

(** The examples of the function's documentation. *)
Example extractTableFromColumn_examples :
  extractTableFromColumn "user_id" = None
  /\ extractTableFromColumn "m.user_id" = Some "m"
  /\ extractTableFromColumn "users.id" = Some "users"
  /\ extractTableFromColumn (Policy.quoted "table name" ++ ".column")
     = Some "table name".
Proof. repeat split; reflexivity. Qed.

Lemma indexOf_at_first (c : ascii) (k : nat) (prefix rest : string) :
  Str.indexOf_at c k prefix = None ->
  Str.indexOf_at c k (prefix ++ String c rest)
  = Some (k + String.length prefix)%nat.
Proof.
  revert k. induction prefix as [|a prefix IH]; intros k H.
  - simpl. rewrite Ascii.eqb_refl. f_equal. lia.
  - simpl in *. destruct (Ascii.eqb a c); [discriminate|].
    rewrite (IH _ H). f_equal. lia.
Qed.

Lemma substring_prefix (prefix rest : string) :
  String.substring 0 (String.length prefix) (prefix ++ rest) = prefix.
Proof.
  induction prefix as [|a prefix IH]; simpl.
  - now destruct rest.
  - now rewrite IH.
Qed.

(** X12.  A column written qualifier.column, the qualifier not empty,
    without a dot and not starting with a double quote, refers to the
    qualifier, whatever the column part is. *)
Lemma extractTableFromColumn_qualified (qualifier col : string) :
  qualifier <> EmptyString ->
  Str.indexOf Str.dot 0 qualifier = None ->
  Str.startsWith Str.dquote qualifier = false ->
  extractTableFromColumn (qualifier ++ String Str.dot col) = Some qualifier.
Proof.
  intros Hne Hdot Hquote. unfold extractTableFromColumn.
  replace (Str.startsWith Str.dquote (qualifier ++ String Str.dot col))
    with false by (destruct qualifier; [contradiction | symmetry; exact Hquote]).
  unfold Str.indexOf in *. cbn [Str.drop] in *.
  rewrite (indexOf_at_first _ _ _ _ Hdot). cbn [Nat.add].
  destruct qualifier as [|a qualifier]; [contradiction|].
  cbn [String.length Nat.ltb Nat.leb]. unfold Str.substring.
  rewrite Nat.sub_0_r.
  change (S (String.length qualifier))
    with (String.length (String a qualifier)).
  now rewrite substring_prefix.
Qed.

(** ** The subquery builder *)

Lemma Join_eta (j : Join) :
  mkJoin (join_table j) (join_alias j) (join_on j) (join_type j) = j.
Proof. now destruct j. Qed.

(** [toSubquery] keeps the first entry of [_joins] and no other. *)
Lemma toSubquery_join (this : SubqueryBuilder) :
  sq_join (toSubquery this) = hd_error (_joins this).
Proof.
  unfold toSubquery. cbn [sq_join].
  destruct (_joins this) as [|j rest]; [reflexivity|].
  cbn [hd_error]. now rewrite Join_eta.
Qed.

(** C2, as the sources have it.  On a builder that holds one join, a second
    call to [join] is checked like the first: its ON condition is validated
    against the from table and the join already held, the table it
    introduces exempted.  When the validation throws, the call throws that
    error and the builder is unchanged.  Otherwise the call returns, the
    builder holds both joins in the order of the calls, and the
    SubqueryDefinition made from it holds the first join only: the second
    one is left out.  Either way the definition holds the first join and no
    other. *)
Theorem second_join_is_kept_out (this : SubqueryBuilder) (first : Join)
    (table : string) (on : ConditionLike) (type : option JoinType)
    (alias : option string) :
  _joins this = [first] ->
  let outcome := fst (join table on type alias this) in
  let after := snd (join table on type alias this) in
  sq_join (toSubquery after) = Some first
  /\ match
       validateTableReferences (normalize on) (_from this) (_fromAlias this)
         [join_scope first] (Some (or_else alias table))
     with
     | Ok _ =>
         outcome = Ok tt
         /\ _joins after
            = [first;
               mkJoin table alias (normalize on)
                 (Some match type with Some t => t | None => inner end)]
     | Throw e => outcome = Throw e /\ after = this
     end.
Proof.
  intros Hjoins outcome after. subst outcome after. unfold join.
  rewrite Hjoins. cbn [map].
  destruct (validateTableReferences _ _ _ _ _) as [[]|e]; cbn [fst snd].
  - split; [|split; reflexivity]. now rewrite toSubquery_join.
  - split; [|split; reflexivity]. now rewrite toSubquery_join, Hjoins.
Qed.

(** C2, witness: a second join on the builder above. *)
Lemma second_join_is_kept_out_witness :
  let second :=
    join "teams" (AsChain (eq_ (column "t.id") (AsValue (VNumber (Number 2)))))
      (Some left_) (Some "t") one_join_builder in
  option_map (fun j : Join => join_table j) (sq_join (toSubquery (snd second)))
  = Some "members".
Proof.
  intros second. subst second.
  destruct (@second_join_is_kept_out one_join_builder
              (mkJoin "members" (Some "m")
                 (condition (eq_ (column "m.project_id") (AsValue (VNumber (Number 1)))))
                 (Some inner))
              "teams" (AsChain (eq_ (column "t.id") (AsValue (VNumber (Number 2)))))
              (Some left_) (Some "t") eq_refl) as [H _].
  rewrite H. reflexivity.
Defined.

(** C2, counterexample.  The second call to [join] on a builder that holds
    one join returns instead of throwing; the builder then holds two joins,
    and the SubqueryDefinition made from it holds the first: the second
    join is dropped without an error. *)
Lemma second_join_is_accepted :
  let second :=
    join "teams" (AsChain (eq_ (column "t.id") (AsValue (VNumber (Number 2)))))
      (Some left_) (Some "t") one_join_builder in
  length (_joins one_join_builder) = 1%nat
  /\ fst second = Ok tt
  /\ map (fun j : Join => join_table j) (_joins (snd second))
     = ["members"; "teams"]
  /\ option_map (fun j : Join => join_table j)
       (sq_join (toSubquery (snd second)))
     = Some "members".
Proof. cbv zeta. repeat split; reflexivity. Qed.

Lemma available_from_only (t : string) :
  getAvailableTables t None [] = [t].
Proof. reflexivity. Qed.

Lemma missing_from_only (c : Condition) (t x : string) :
  In x (detectMissingJoins (Some c) [t])
  <-> In x (extractTableReferences c) /\ x <> t.
Proof.
  unfold detectMissingJoins. rewrite filter_In.
  unfold Set_has. cbn [existsb]. rewrite orb_false_r, negb_true_iff.
  now rewrite String.eqb_neq.
Qed.

(** On a builder made by from(t) without join, [where] throws as soon as
    the walk finds a table other than t. *)
Lemma where_rejects_missing_table (this : SubqueryBuilder)
    (cond : ConditionLike) (m : string) :
  _fromAlias this = None ->
  _joins this = [] ->
  In m (extractTableReferences (normalize cond)) ->
  m <> _from this ->
  exists first rest,
    detectMissingJoins (Some (normalize cond)) [_from this] = first :: rest
    /\ In m (first :: rest)
    /\ (forall x,
           In x (first :: rest)
           <-> In x (extractTableReferences (normalize cond))
               /\ x <> _from this)
    /\ where_ cond this
       = (Throw
            (Error
               ("Missing join(s) for table(s): "
                  ++ Str.join ", " (first :: rest) ++ ". "
                  ++ "Add a join using .join('" ++ first
                  ++ "', ...) before calling .where()")),
          this).
Proof.
  intros Halias Hjoins Hin Hneq.
  assert (Hm : In m (detectMissingJoins (Some (normalize cond)) [_from this]))
    by now apply missing_from_only.
  destruct (detectMissingJoins (Some (normalize cond)) [_from this])
    as [|first rest] eqn:Hmissing; [contradiction|].
  exists first, rest. split; [reflexivity|]. split; [exact Hm|]. split.
  - intros x. rewrite <- Hmissing. apply missing_from_only.
  - unfold where_, validateTableReferences.
    rewrite Halias, Hjoins. cbn [map]. rewrite available_from_only, Hmissing.
    reflexivity.
Qed.

(** ** The policy builder *)

Module PolicyFacts.

Import Policy.

Lemma step_keeps_no_predicate (this : PolicyBuilder) (s : Step) :
  sets_predicate s = false ->
  using_ (step this s) = using_ this
  /\ withCheck_ (step this s) = withCheck_ this.
Proof. destruct s; intros H; try discriminate H; split; reflexivity. Qed.

Lemma chain_keeps_no_predicate (steps : list Step) (this : PolicyBuilder) :
  forallb (fun s => negb (sets_predicate s)) steps = true ->
  using_ (chain steps this) = using_ this
  /\ withCheck_ (chain steps this) = withCheck_ this.
Proof.
  revert this. induction steps as [|s steps IH]; intros this H.
  - split; reflexivity.
  - cbn [forallb] in H. apply andb_true_iff in H as [Hs Hrest].
    apply negb_true_iff in Hs. cbn [chain fold_left].
    destruct (IH (step this s) Hrest) as [Hu Hw]. unfold chain in Hu, Hw.
    destruct (step_keeps_no_predicate this s Hs) as [Hu' Hw'].
    split; congruence.
Qed.

(** C4.  [allow] places its condition by the operation of the policy:
    for INSERT it sets WITH CHECK and leaves USING as it was; for SELECT
    and DELETE it sets USING and leaves WITH CHECK as it was; for UPDATE and
    ALL it sets both to the same condition.  Nothing else of the policy
    changes.  Right after [for], where no predicate is set yet, the rendered
    policy has for INSERT the WITH CHECK clause and no USING clause, for
    SELECT and DELETE the USING clause and no WITH CHECK clause, and for
    UPDATE and ALL both clauses, each around the text of the condition. *)
Theorem allow_places_condition (cond : ConditionLike) (this : PolicyBuilder) :
  let after := allow cond this in
  match operation this with
  | INSERT =>
      using_ after = using_ this /\ withCheck_ after = Some (normalize cond)
  | SELECT | DELETE =>
      using_ after = Some (normalize cond)
      /\ withCheck_ after = withCheck_ this
  | UPDATE | ALL =>
      using_ after = Some (normalize cond)
      /\ withCheck_ after = Some (normalize cond)
  end
  /\ (name after, table after, operation after, role after,
      isRestrictive after, description_ after)
     = (name this, table this, operation this, role this,
        isRestrictive this, description_ this)
  /\ forall (policy target : string) (op : Operation),
      let fresh := allow cond (for_ op (on target (createPolicy policy))) in
      clause "USING" (using_ fresh)
      = match op with
        | INSERT => Ok EmptyString
        | _ =>
            text <- Condition_toSQL (normalize cond) ;;
            Ok (" USING (" ++ text ++ ")")
        end
      /\ clause "WITH CHECK" (withCheck_ fresh)
         = match op with
           | SELECT | DELETE => Ok EmptyString
           | _ =>
               text <- Condition_toSQL (normalize cond) ;;
               Ok (" WITH CHECK (" ++ text ++ ")")
           end
      /\ toSQL fresh
         = (text <- Condition_toSQL (normalize cond) ;;
            Ok ("CREATE POLICY " ++ quoted policy ++ " ON " ++ quoted target
                  ++ " FOR " ++ Operation_text op
                  ++ match op with
                     | INSERT => EmptyString
                     | _ => " USING (" ++ text ++ ")"
                     end
                  ++ match op with
                     | SELECT | DELETE => EmptyString
                     | _ => " WITH CHECK (" ++ text ++ ")"
                     end)).
Proof.
  intros after. subst after. split; [|split].
  - unfold allow. destruct (operation this); split; reflexivity.
  - unfold allow.
    destruct (operation this) eqn:Hop; cbn; rewrite ?Hop; reflexivity.
  - intros policy target op fresh. subst fresh.
    unfold allow, toSQL, header.
    destruct op; cbn; destruct (Condition_toSQL (normalize cond)); cbn;
      rewrite ?append_nil_r; repeat (rewrite !append_assoc; cbn);
      repeat split; reflexivity.
Qed.

(** C4, an instance: for('INSERT').allow(user_id = auth.uid()). *)
Example allow_on_insert_renders :
  toSQL
    (allow (AsChain (eq_ (column "user_id") (AsValue (VCondition auth.uid))))
       (for_ INSERT (on "documents" (createPolicy "own_rows"))))
  = Ok ("CREATE POLICY " ++ quoted "own_rows" ++ " ON " ++ quoted "documents"
          ++ " FOR INSERT WITH CHECK (user_id = auth.uid())").
Proof. reflexivity. Qed.

(** C5.  A policy on which, after [for], only [to], [restrictive] and
    [description] were called, and none of [when], [allow] and [withCheck],
    has neither USING nor WITH CHECK, and rendering it throws. *)
Theorem toSQL_fails_without_predicate (policy target : string)
    (op : Operation) (steps : list Step) :
  forallb (fun s => negb (sets_predicate s)) steps = true ->
  using_ (chain steps (for_ op (on target (createPolicy policy)))) = None
  /\ withCheck_ (chain steps (for_ op (on target (createPolicy policy)))) = None
  /\ exists e, toSQL (chain steps (for_ op (on target (createPolicy policy)))) = Throw e.
Proof.
  intros H.
  destruct (chain_keeps_no_predicate steps (for_ op (on target (createPolicy policy))) H)
    as [Hu Hw].
  cbn in Hu, Hw. repeat split; try assumption.
  unfold toSQL. rewrite Hu, Hw. eauto.
Qed.

(** C5, witness: createPolicy('p').on('t').for('SELECT').to('authenticated')
    .restrictive().description('no predicate'). *)
Lemma toSQL_fails_without_predicate_witness :
  returns
    (toSQL
       (chain
          [step_to "authenticated"; step_restrictive;
           step_description "no predicate"]
          (for_ SELECT (on "t" (createPolicy "p")))))
  = false.
Proof.
  destruct (@toSQL_fails_without_predicate "p" "t" SELECT
              [step_to "authenticated"; step_restrictive;
               step_description "no predicate"] eq_refl)
    as (_ & _ & e & He).
  rewrite He. reflexivity.
Defined.

(** With a predicate set the same chain renders. *)
Example toSQL_with_predicate_renders :
  returns
    (toSQL
       (chain
          [step_to "authenticated"; step_when (AsChain alwaysTrue);
           step_restrictive]
          (for_ SELECT (on "t" (createPolicy "p")))))
  = true.
Proof. reflexivity. Qed.

End PolicyFacts.

(** * Further properties of the sources *)

(** ** Induction on conditions, through the children that the validator
    visits *)

Section Condition_induction.

Variable P : Condition -> Prop.

Hypothesis P_comparison :
  forall column operator value r,
    (forall c, value = VCondition c -> P c) ->
    P (comparison column operator value r).
Hypothesis P_pattern : forall column operator p r, P (pattern column operator p r).
Hypothesis P_membership :
  forall column operator value r, P (membership column operator value r).
Hypothesis P_null : forall column value r, P (null column value r).
Hypothesis P_logical :
  forall operator conditions r,
    Forall P conditions -> P (logical operator conditions r).
Hypothesis P_helper : forall helperType params r, P (helper helperType params r).
Hypothesis P_function :
  forall functionName arguments r,
    (forall c, In (ArgCondition c) arguments -> P c) ->
    P (function functionName arguments r).
Hypothesis P_context : forall contextType r, P (context contextType r).

Lemma Condition_nested_ind : forall c : Condition, P c.
Proof.
  fix IH 1.
  intros [ column operator value r | column operator p r
         | column operator value r | column value r
         | operator conditions r | helperType params r
         | functionName arguments r | contextType r ].
  - apply P_comparison.
    destruct value as [ | | | | | | | c' | ]; intros c Heq;
      try discriminate Heq.
    injection Heq as <-. apply IH.
  - apply P_pattern.
  - apply P_membership.
  - apply P_null.
  - apply P_logical.
    induction conditions as [|child rest IHrest]; constructor;
      [ apply IH | exact IHrest ].
  - apply P_helper.
  - apply P_function.
    induction arguments as [|arg rest IHrest]; intros c Hin.
    + destruct Hin.
    + destruct Hin as [Heq | Hin].
      * destruct arg as [s | c']; [discriminate Heq|].
        injection Heq as <-. apply IH.
      * now apply IHrest.
  - apply P_context.
Qed.

End Condition_induction.

(** ** Chaining *)

Lemma LogicalOperator_eqb_eq (a b : LogicalOperator) :
  LogicalOperator_eqb a b = true -> a = b.
Proof. destruct a, b; simpl; congruence. Qed.

Lemma operands_of_chain (operator : LogicalOperator)
    (conditions : list Condition) (r : result string) :
  operands operator (logical operator conditions r) = conditions.
Proof.
  unfold operands, is_logical, children.
  now destruct operator.
Qed.

Lemma chainWith_operands (this : ConditionChain) (other : ConditionLike)
    (operator : LogicalOperator) :
  condition (chainWith this other operator)
  = logical operator
      (operands operator (condition this)
         ++ operands operator (normalize other))%list
      (logical_toSQL operator
         (operands operator (condition this)
            ++ operands operator (normalize other))%list).
Proof.
  unfold chainWith. cbn [condition].
  now rewrite flattenConditions_operands.
Qed.

(** X1.  Chaining with one operator is associative: (A op B) op C and
    A op (B op C) are the same node, with the same children in the same
    order and the same rendering, whatever A, B and C are. *)
Theorem chainWith_associative (A B C : ConditionChain)
    (operator : LogicalOperator) :
  chainWith (chainWith A (AsChain B) operator) (AsChain C) operator
  = chainWith A (AsChain (chainWith B (AsChain C) operator)) operator.
Proof.
  assert (H : forall x y : ConditionChain, condition x = condition y -> x = y).
  { intros [x] [y]. cbn. now intros ->. }
  apply H. rewrite !chainWith_operands. cbn [normalize toCondition].
  rewrite !chainWith_operands. cbn [normalize toCondition].
  rewrite !operands_of_chain. now rewrite app_assoc.
Qed.

Lemma well_flattened_logical (operator : LogicalOperator)
    (conditions : list Condition) (r : result string) :
  well_flattened (logical operator conditions r)
  = ((2 <=? List.length conditions)%nat
     && forallb
          (fun child => negb (is_logical operator child) && well_flattened child)
          conditions).
Proof.
  reflexivity.
Qed.

Lemma operands_well_flattened (operator : LogicalOperator) (c : Condition) :
  well_flattened c = true ->
  (1 <= List.length (operands operator c))%nat
  /\ forallb
       (fun child => negb (is_logical operator child) && well_flattened child)
       (operands operator c) = true.
Proof.
  intros Hc. unfold operands.
  destruct (is_logical operator c) eqn:E.
  - destruct c; try discriminate E. cbn [is_logical] in E.
    apply LogicalOperator_eqb_eq in E. subst operator0.
    rewrite well_flattened_logical in Hc.
    apply andb_true_iff in Hc as [Hlen Hall]. cbn [children].
    apply Nat.leb_le in Hlen. split; [lia | exact Hall].
  - cbn [List.length forallb]. rewrite E, Hc. split; [lia | reflexivity].
Qed.

(** X2.  Chaining keeps the trees flat: when both sides are trees in which
    every logical node has at least two children and no child with the
    operator of its parent, so is the chain of the two, for [and] and for
    [or]. *)
Theorem chainWith_keeps_flat (this : ConditionChain) (other : ConditionLike)
    (operator : LogicalOperator) :
  well_flattened (condition this) = true ->
  well_flattened (normalize other) = true ->
  well_flattened (condition (chainWith this other operator)) = true.
Proof.
  intros Hthis Hother. rewrite chainWith_operands, well_flattened_logical.
  destruct (operands_well_flattened operator _ Hthis) as [Hl1 Hall1].
  destruct (operands_well_flattened operator _ Hother) as [Hl2 Hall2].
  rewrite forallb_app, Hall1, Hall2, length_app.
  apply andb_true_iff. split; [|reflexivity].
  apply Nat.leb_le. lia.
Qed.

(** X2, witness: (a = 1 AND b IS NULL) OR (c LIKE 'x%' OR d IS NULL). *)
Lemma chainWith_keeps_flat_witness :
  let left := and_ (eq_ (column "a") (AsValue (VNumber (Number 1))))
                (AsChain (isNull (column "b"))) in
  let right := or_ (like (column "c") "x%") (AsChain (isNull (column "d"))) in
  well_flattened (condition (or_ left (AsChain right))) = true
  /\ List.length (children (condition (or_ left (AsChain right)))) = 3%nat.
Proof.
  intros left right. split; [|reflexivity].
  exact (@chainWith_keeps_flat left (AsChain right) OR eq_refl eq_refl).
Defined.

(** ** The validator's sets *)

Lemma Set_has_In (x : string) (s : list string) :
  Set_has x s = true <-> In x s.
Proof.
  unfold Set_has. rewrite existsb_exists. split.
  - intros (y & Hin & Heq). apply String.eqb_eq in Heq. now subst.
  - intros Hin. exists x. split; [exact Hin | apply String.eqb_refl].
Qed.

Lemma Set_has_not_In (x : string) (s : list string) :
  Set_has x s = false <-> ~ In x s.
Proof.
  rewrite <- Set_has_In. destruct (Set_has x s); split; congruence.
Qed.

Lemma Set_add_In (x y : string) (s : list string) :
  In y (Set_add x s) <-> y = x \/ In y s.
Proof.
  unfold Set_add. destruct (Set_has x s) eqn:E.
  - apply Set_has_In in E. split; [auto|]. intros [-> | H]; assumption.
  - rewrite in_app_iff. cbn. intuition.
Qed.

Lemma Set_add_NoDup (x : string) (s : list string) :
  NoDup s -> NoDup (Set_add x s).
Proof.
  intros Hs. unfold Set_add. destruct (Set_has x s) eqn:E; [exact Hs|].
  apply Set_has_not_In in E.
  apply NoDup_app; [exact Hs | repeat constructor; intros [] | ].
  intros y Hy [<- | []]. contradiction.
Qed.

Lemma Set_add_extends (x : string) (s : list string) :
  exists extra, Set_add x s = (s ++ extra)%list.
Proof.
  unfold Set_add. destruct (Set_has x s).
  - exists []. now rewrite app_nil_r.
  - now exists [x].
Qed.

Lemma grows_refl (s : list string) : grows s s.
Proof.
  repeat split; auto. exists []. now rewrite app_nil_r.
Qed.

Lemma grows_trans (a b c : list string) : grows a b -> grows b c -> grows a c.
Proof.
  intros (N1 & E1 & x1 & ->) (N2 & E2 & x2 & ->).
  repeat split; auto. exists (x1 ++ x2)%list. now rewrite app_assoc.
Qed.

Lemma add_table_grows (ref : string) (tables : list string) :
  grows tables (add_table ref tables).
Proof.
  unfold add_table, if_truthy.
  destruct (extractTableFromColumn ref) as [[|a t]|]; cbn [Str.is_empty];
    try apply grows_refl.
  repeat split.
  - apply Set_add_NoDup.
  - intros H Hin. apply Set_add_In in Hin as [Heq | Hin];
      [discriminate | contradiction].
  - apply Set_add_extends.
Qed.

Lemma traverse_grows (c : Condition) :
  forall tables, grows tables (traverse c tables).
Proof.
  induction c as
    [ column operator value r IH | column operator p r
    | column operator value r | column value r
    | operator conditions r IH | helperType params r
    | functionName arguments r IH | contextType r ]
    using Condition_nested_ind; intros tables; cbn [traverse].
  - destruct value; try apply add_table_grows.
    eapply grows_trans; [apply add_table_grows | now apply IH].
  - apply add_table_grows.
  - destruct (Str.is_empty column); [apply grows_refl | apply add_table_grows].
  - apply add_table_grows.
  - revert tables. induction IH as [|child rest Hchild _ IHrest];
      intros tables; [apply grows_refl|].
    eapply grows_trans; [apply Hchild | apply IHrest].
  - generalize (map snd params). intros values. revert tables.
    induction values as [|v values IHv]; intros tables; cbn [fold_left];
      [apply grows_refl|].
    eapply grows_trans; [apply add_table_grows | apply IHv].
  - revert tables. induction arguments as [|arg rest IHrest]; intros tables;
      [apply grows_refl|].
    destruct arg as [s | c].
    + eapply grows_trans; [apply add_table_grows|].
      apply IHrest. intros c Hin. apply IH. now right.
    + eapply grows_trans; [apply IH; now left|].
      apply IHrest. intros c' Hin. apply IH. now right.
  - apply grows_refl.
Qed.

(** X3.  The tables that [extractTableReferences] collects from a
    condition, whatever its shape, are pairwise different and none of them
    is the empty name. *)
Theorem extractTableReferences_is_a_set (condition : Condition) :
  NoDup (extractTableReferences condition)
  /\ ~ In EmptyString (extractTableReferences condition).
Proof.
  destruct (traverse_grows condition []) as (Hnodup & Hempty & _).
  split; [apply Hnodup; constructor | apply Hempty; intros []].
Qed.

(** X5.  [detectMissingJoins] returns the referenced tables that are not
    available, each once and in the order of [extractTableReferences]; it
    returns the empty array exactly when every referenced table is
    available, and always when there is no condition. *)
Theorem detectMissingJoins_characterised (condition : Condition)
    (availableTables : list string) :
  (forall t,
      In t (detectMissingJoins (Some condition) availableTables)
      <-> In t (extractTableReferences condition) /\ ~ In t availableTables)
  /\ NoDup (detectMissingJoins (Some condition) availableTables)
  /\ (detectMissingJoins (Some condition) availableTables = []
      <-> forall t,
            In t (extractTableReferences condition) -> In t availableTables)
  /\ detectMissingJoins None availableTables = [].
Proof.
  assert (Hin : forall t,
             In t (detectMissingJoins (Some condition) availableTables)
             <-> In t (extractTableReferences condition)
                 /\ ~ In t availableTables).
  { intros t. unfold detectMissingJoins.
    now rewrite filter_In, negb_true_iff, Set_has_not_In. }
  split; [exact Hin|]. split; [|split; [|reflexivity]].
  - apply NoDup_filter. apply extractTableReferences_is_a_set.
  - split.
    + intros Hnil t Ht.
      destruct (in_dec string_dec t availableTables) as [|Hout]; [assumption|].
      assert (Hm : In t (detectMissingJoins (Some condition) availableTables))
        by now apply Hin.
      rewrite Hnil in Hm. destruct Hm.
    + intros Hall.
      destruct (detectMissingJoins (Some condition) availableTables)
        as [|t rest] eqn:E; [reflexivity|].
      assert (Hm : In t (t :: rest)) by now left.
      apply Hin in Hm as [Href Hout]. elim Hout. now apply Hall.
Qed.

Lemma fold_Set_add_In (x : string) (joins : list (string * option string))
    (tables : list string) :
  In x
    (fold_left
       (fun tables join => Set_add (or_else (snd join) (fst join)) tables)
       joins tables)
  <-> In x tables
      \/ exists join, In join joins /\ x = or_else (snd join) (fst join).
Proof.
  revert tables. induction joins as [|j joins IH]; intros tables;
    cbn [fold_left].
  - split; [auto | intros [H | (j & [] & _)]; exact H].
  - rewrite IH, Set_add_In. split.
    + intros [[-> | H] | (j' & Hin & ->)].
      * right. exists j. split; [now left | reflexivity].
      * now left.
      * right. exists j'. split; [now right | reflexivity].
    + intros [H | (j' & [<- | Hin] & ->)].
      * left. now right.
      * left. now left.
      * right. now exists j'.
Qed.

Lemma fold_Set_add_NoDup (joins : list (string * option string))
    (tables : list string) :
  NoDup tables ->
  NoDup
    (fold_left
       (fun tables join => Set_add (or_else (snd join) (fst join)) tables)
       joins tables).
Proof.
  revert tables. induction joins as [|j joins IH]; intros tables H;
    cbn [fold_left]; [exact H|].
  apply IH. now apply Set_add_NoDup.
Qed.

(** X6.  The available tables of a scope are the name under which the from
    table is visible, its alias when it has a non-empty one and its table
    name otherwise, and the same for each join; each is listed once.  A
    table that has an alias is not available under its own name. *)
Theorem getAvailableTables_characterised (fromTable : string)
    (fromAlias : option string) (joins : list (string * option string)) :
  (forall t,
      In t (getAvailableTables fromTable fromAlias joins)
      <-> t = or_else fromAlias fromTable
          \/ exists join, In join joins /\ t = or_else (snd join) (fst join))
  /\ NoDup (getAvailableTables fromTable fromAlias joins)
  /\ forall alias,
       alias <> EmptyString ->
       alias <> fromTable ->
       ~ In fromTable (getAvailableTables fromTable (Some alias) []).
Proof.
  split; [|split].
  - intros t. unfold getAvailableTables. rewrite fold_Set_add_In.
    cbn. intuition.
  - apply fold_Set_add_NoDup. apply Set_add_NoDup. constructor.
  - intros alias Hne Hdiff. cbn.
    destruct alias as [|a alias]; [contradiction|]. cbn.
    intros [H | []]. now apply Hdiff.
Qed.

(** ** The subquery builder's checks *)

(** X7.  [where] accepts a condition exactly when every table it refers to
    is available in the scope of the builder (the from table and the joins,
    each under its alias when it has one).  Then it records the condition
    and changes nothing else; otherwise it throws and the builder is as
    before. *)
Theorem where_accepts_what_is_in_scope (this : SubqueryBuilder)
    (cond : ConditionLike) :
  let scope :=
    getAvailableTables (_from this) (_fromAlias this)
      (map join_scope (_joins this)) in
  if forallb (fun t => Set_has t scope)
       (extractTableReferences (normalize cond))
  then
    where_ cond this
    = (Ok tt,
       mkSubqueryBuilder (_from this) (_fromAlias this) (_select this)
         (Some (normalize cond)) (_joins this))
  else
    exists message, where_ cond this = (Throw (Error message), this).
Proof.
  intros scope. unfold where_, validateTableReferences. fold scope.
  unfold detectMissingJoins.
  induction (extractTableReferences (normalize cond)) as [|t refs IH].
  - reflexivity.
  - cbn [forallb filter]. destruct (Set_has t scope); cbn [negb andb].
    + exact IH.
    + cbn [if_truthy truthy]. eauto.
Qed.

(** X8.  [join] accepts an ON condition exactly when every table it refers
    to is available before the join or is the table that the join
    introduces (its alias when it has a non-empty one, its name otherwise).
    Then the join is appended after the joins already held, with the kind
    inner when none is given.  Otherwise the call throws, the message lists
    the offending tables and names no join to add, and the builder is as
    before. *)
Theorem join_accepts_its_own_table (this : SubqueryBuilder) (table : string)
    (on : ConditionLike) (type : option JoinType) (alias : option string) :
  table <> EmptyString ->
  let scope :=
    getAvailableTables (_from this) (_fromAlias this)
      (map join_scope (_joins this)) in
  let offending :=
    filter
      (fun t => negb (Set_has t scope)
                && negb (String.eqb t (or_else alias table)))
      (extractTableReferences (normalize on)) in
  match offending with
  | [] =>
      join table on type alias this
      = (Ok tt,
         mkSubqueryBuilder (_from this) (_fromAlias this) (_select this)
           (_where this)
           (_joins this
              ++ [mkJoin table alias (normalize on)
                    (Some match type with Some t => t | None => inner end)]))
  | _ :: _ =>
      join table on type alias this
      = (Throw
           (Error
              ("Join condition references unavailable table(s): "
                 ++ Str.join ", " offending)),
         this)
  end.
Proof.
  intros Htable scope offending.
  assert (Hallowed : Str.is_empty (or_else alias table) = false).
  { unfold or_else. destruct alias as [[|a s]|]; cbn;
      try reflexivity; now destruct table. }
  assert (Hfilter :
            offending
            = filter (fun t => negb (String.eqb t (or_else alias table)))
                (detectMissingJoins (Some (normalize on)) scope)).
  { subst offending. unfold detectMissingJoins.
    induction (extractTableReferences (normalize on)) as [|t refs IH];
      [reflexivity|].
    cbn [filter]. destruct (Set_has t scope); cbn [negb andb]; [exact IH|].
    cbn [filter]. now rewrite IH. }
  unfold join, validateTableReferences. fold scope.
  unfold if_truthy, truthy. rewrite Hallowed. cbn [negb].
  rewrite <- Hfilter.
  destruct (detectMissingJoins (Some (normalize on)) scope) as [|m missing].
  - cbn [filter] in Hfilter. now rewrite Hfilter.
  - destruct offending; reflexivity.
Qed.

(** X9.  A later [where] replaces the condition of an earlier one, and a
    later [where] that is rejected leaves the earlier condition in place:
    whether the second call is accepted does not depend on the first. *)
Theorem where_after_where (this : SubqueryBuilder) (first second : ConditionLike) :
  where_ second (snd (where_ first this))
  = match fst (where_ second this) with
    | Ok _ => where_ second this
    | Throw e => (Throw e, snd (where_ first this))
    end.
Proof.
  unfold where_.
  destruct (validateTableReferences (normalize first) (_from this)
              (_fromAlias this) (map join_scope (_joins this)) None);
    cbn [snd _from _fromAlias _joins _select];
    destruct (validateTableReferences (normalize second) (_from this)
                (_fromAlias this) (map join_scope (_joins this)) None);
    reflexivity.
Qed.

(** X8, witness: on from('projects', 'p'), a join of members as m whose ON
    condition refers to m, to p and to the undeclared x. *)
Lemma join_accepts_its_own_table_witness :
  let on :=
    and_
      (and_ (eq_ (column "m.project_id") (AsValue (VNumber (Number 1))))
         (AsChain (isNull (column "p.deleted_at"))))
      (AsChain (isNull (column "x.flag"))) in
  join "members" (AsChain on) None (Some "m") (from "projects" (Some "p"))
  = (Throw (Error "Join condition references unavailable table(s): x"),
     from "projects" (Some "p")).
Proof.
  intros on.
  assert (Hne : "members" <> EmptyString) by discriminate.
  exact (@join_accepts_its_own_table (from "projects" (Some "p")) "members"
           (AsChain on) None (Some "m") Hne).
Defined.

(** ** Column references *)

Lemma indexOf_at_none_no_char (c : ascii) (k i : nat) (s : string) :
  Str.indexOf_at c k s = None ->
  String.get i s <> Some c.
Proof.
  revert k i. induction s as [|a s IH]; intros k i H; simpl in *.
  - now destruct i.
  - destruct (Ascii.eqb a c) eqn:E; [discriminate|].
    destruct i as [|i]; simpl.
    + intros [= ->]. now rewrite Ascii.eqb_refl in E.
    + now apply (IH (S k)).
Qed.

(** X10.  A column reference without any dot has no table, and neither has
    one that starts with a dot. *)
Theorem extractTableFromColumn_needs_a_dot (columnRef : string) :
  (Str.indexOf Str.dot 0 columnRef = None ->
   extractTableFromColumn columnRef = None)
  /\ extractTableFromColumn (String Str.dot columnRef) = None.
Proof.
  split; [|reflexivity].
  intros Hdot. unfold extractTableFromColumn. rewrite Hdot.
  destruct (Str.startsWith Str.dquote columnRef); [|reflexivity].
  destruct (Str.indexOf Str.dquote 1 columnRef) as [endQuote|]; [|reflexivity].
  destruct (String.get (endQuote + 1) columnRef) as [c|] eqn:G;
    [|now rewrite andb_false_r].
  destruct (Ascii.eqb c Str.dot) eqn:E; [|now rewrite andb_false_r].
  apply Ascii.eqb_eq in E. subst c.
  unfold Str.indexOf in Hdot. cbn [Str.drop] in Hdot.
  now apply (@indexOf_at_none_no_char _ _ (endQuote + 1)%nat _) in Hdot.
Qed.

Lemma no_special_no_char (c : ascii) (k : nat) (s : string) :
  Str.word_char c = false ->
  Str.has_special s = false ->
  Str.indexOf_at c k s = None.
Proof.
  intros Hc. revert k. induction s as [|a s IH]; intros k H; simpl in *;
    [reflexivity|].
  apply orb_false_iff in H as [Ha Hs]. apply negb_false_iff in Ha.
  destruct (Ascii.eqb a c) eqn:E.
  - apply Ascii.eqb_eq in E. subst a. congruence.
  - now apply IH.
Qed.

(** X11.  A column reference in which the validator finds a table is
    rendered by [escapeIdentifier] as one double-quoted identifier that
    holds the whole reference, dot included: it reads back as the reference
    itself, not as a table and a column. *)
Theorem qualified_reference_is_quoted_whole (columnRef table : string) :
  extractTableFromColumn columnRef = Some table ->
  Lex.read_quoted Str.dquote (escapeIdentifier columnRef)
  = Some (columnRef, EmptyString).
Proof.
  intros Htable.
  destruct (Str.has_special columnRef) eqn:Hs.
  - unfold escapeIdentifier. rewrite Hs.
    apply (read_quoted_escaped Str.dquote columnRef EmptyString). reflexivity.
  - assert (Hdot : Str.indexOf Str.dot 0 columnRef = None)
      by (apply no_special_no_char; [reflexivity | exact Hs]).
    destruct (extractTableFromColumn_needs_a_dot columnRef) as [H _].
    rewrite (H Hdot) in Htable. discriminate.
Qed.

(** X11, witness: the reference m.user_id. *)
Lemma qualified_reference_is_quoted_whole_witness :
  extractTableFromColumn "m.user_id" = Some "m"
  /\ Lex.read_quoted Str.dquote (escapeIdentifier "m.user_id")
     = Some ("m.user_id", EmptyString).
Proof.
  split; [reflexivity|].
  exact (@qualified_reference_is_quoted_whole "m.user_id" "m" eq_refl).
Defined.

(** X12, witness for [extractTableFromColumn_qualified]: users.id. *)
Lemma extractTableFromColumn_qualified_witness :
  extractTableFromColumn "users.id" = Some "users".
Proof.
  assert (Hne : "users" <> EmptyString) by discriminate.
  exact (@extractTableFromColumn_qualified "users" "id" Hne eq_refl eq_refl).
Defined.

(** ** Identifiers and literals *)

(** X13.  [escapeIdentifier] never gives the same text for two different
    names. *)
Theorem escapeIdentifier_injective (a b : string) :
  a <> b -> escapeIdentifier a <> escapeIdentifier b.
Proof.
  intros Hab Heq. apply Hab. clear Hab.
  assert (Hq : forall n, Str.has_special n = true ->
                 Lex.read_quoted Str.dquote (escapeIdentifier n)
                 = Some (n, EmptyString)).
  { intros n Hs. unfold escapeIdentifier. rewrite Hs.
    apply (read_quoted_escaped Str.dquote n EmptyString). reflexivity. }
  assert (Hmixed : forall x y, Str.has_special x = true ->
                     Str.has_special y = false ->
                     escapeIdentifier x <> escapeIdentifier y).
  { intros x y Hx Hy H. unfold escapeIdentifier in H. rewrite Hx, Hy in H.
    subst y. discriminate Hy. }
  destruct (Str.has_special a) eqn:Ha, (Str.has_special b) eqn:Hb.
  - pose proof (Hq a Ha) as H1. rewrite Heq, (Hq b Hb) in H1. congruence.
  - now elim (Hmixed a b).
  - symmetry in Heq. now elim (Hmixed b a).
  - unfold escapeIdentifier in Heq. now rewrite Ha, Hb in Heq.
Qed.

(** X13, witness: the names a b and a_b. *)
Lemma escapeIdentifier_injective_witness :
  escapeIdentifier "a b" <> escapeIdentifier "a_b".
Proof.
  assert (H : "a b" <> "a_b") by discriminate.
  exact (@escapeIdentifier_injective "a b" "a_b" H).
Defined.

(** X14.  The literal that [escapeValue] makes of a string is read back as
    that string in any context: followed by any text that does not start
    with a single quote, the literal ends where it was meant to end and the
    text that follows is left untouched.  Two different strings never get
    the same literal. *)
Theorem escapeValue_string_in_context (s following : string) :
  Str.startsWith Str.squote following = false ->
  exists literal,
    escapeValue (VString s) = Ok literal
    /\ Lex.read_quoted Str.squote (literal ++ following) = Some (s, following)
    /\ forall s', escapeValue (VString s') = Ok literal -> s' = s.
Proof.
  intros Hfollowing.
  assert (Hread : forall x after,
             Str.startsWith Str.squote after = false ->
             Lex.read_quoted Str.squote
               (("'" ++ Str.replaceAll Str.squote "''" x ++ "'") ++ after)
             = Some (x, after)).
  { intros x after H. rewrite append_assoc.
    cbn [append]. rewrite append_assoc.
    now apply (read_quoted_escaped Str.squote x after). }
  eexists. split; [reflexivity|]. split; [now apply Hread|].
  intros s' [= H].
  pose proof (Hread s' EmptyString eq_refl) as H1.
  rewrite H, (Hread s EmptyString eq_refl) in H1. congruence.
Qed.

(** X14, witness: the string it's inside a comparison. *)
Lemma escapeValue_string_in_context_witness :
  Lex.read_quoted Str.squote ("'it''s' AND x = 1") = Some ("it's", " AND x = 1").
Proof.
  destruct (@escapeValue_string_in_context "it's" " AND x = 1" eq_refl)
    as (literal & Hliteral & Hread & _).
  injection Hliteral as <-. exact Hread.
Defined.

(** X15.  [escapeValue] on an array reports the error of its first item
    that cannot be rendered, in index order, whatever comes after it. *)
Theorem escapeValue_array_first_error (before after : list Value)
    (bad : Value) (e : JsError) :
  forallb renderable before = true ->
  escapeValue bad = Throw e ->
  escapeValue (VArray (before ++ bad :: after)) = Throw e.
Proof.
  intros Hbefore Hbad. rewrite escapeValue_array.
  induction before as [|item before IH]; cbn [app mapM].
  - now rewrite Hbad.
  - cbn [forallb] in Hbefore. apply andb_true_iff in Hbefore as [Hitem Hrest].
    rewrite <- escapeValue_returns in Hitem.
    destruct (escapeValue item) as [x|]; [|discriminate]. cbn [bind].
    specialize (IH Hrest).
    destruct (mapM escapeValue (before ++ bad :: after)) as [xs|e'];
      cbn [bind] in *; [discriminate | exact IH].
Qed.

(** X15, witness: a number, an invalid date, then a condition that throws
    another error. *)
Lemma escapeValue_array_first_error_witness :
  escapeValue
    (VArray [VNumber (Number 1); VDate InvalidDate;
             VCondition (throwing_condition "later")])
  = Throw (RangeError "Invalid time value").
Proof.
  exact (@escapeValue_array_first_error [VNumber (Number 1)]
           [VCondition (throwing_condition "later")] (VDate InvalidDate)
           (RangeError "Invalid time value") eq_refl eq_refl).
Defined.

(** ** Subqueries and helpers *)

(** X16.  [subqueryToSQL] gives a text between parentheses that starts with
    SELECT, whatever the definition holds; it throws only when the ON
    condition of the join or the where condition throws, with that error,
    the one of the ON condition first. *)
Theorem subqueryToSQL_parenthesized (subquery : SubqueryDefinition) :
  match subqueryToSQL subquery with
  | Ok text => exists body, text = "(SELECT " ++ body ++ ")"
  | Throw e =>
      (exists j, sq_join subquery = Some j /\ Condition_toSQL (join_on j) = Throw e)
      \/ (exists w,
             sq_where subquery = Some w /\ Condition_toSQL w = Throw e
             /\ forall j, sq_join subquery = Some j ->
                          returns (Condition_toSQL (join_on j)) = true)
  end.
Proof.
  assert (Happ : forall x y,
             (exists b, x = "SELECT " ++ b) ->
             exists b, x ++ y = "SELECT " ++ b).
  { intros x y [b ->]. exists (b ++ y). now rewrite append_assoc. }
  assert (Hshape : forall x,
             (exists b, x = "SELECT " ++ b) ->
             exists body, "(" ++ x ++ ")" = "(SELECT " ++ body ++ ")").
  { intros x [b ->]. now exists b. }
  unfold subqueryToSQL. cbv zeta.
  destruct (sq_join subquery) as [j|].
  - destruct (Condition_toSQL (join_on j)) as [on|e] eqn:Hon; cbn [bind].
    + destruct (sq_where subquery) as [w|].
      * destruct (Condition_toSQL w) as [w'|e] eqn:Hw; cbn [bind].
        -- apply Hshape. repeat apply Happ. eexists. reflexivity.
        -- right. exists w. split; [reflexivity|]. split; [exact Hw|].
           intros j' [= <-]. now rewrite Hon.
      * cbn [bind]. apply Hshape. repeat apply Happ. eexists. reflexivity.
    + left. exists j. split; [reflexivity | exact Hon].
  - cbn [bind]. destruct (sq_where subquery) as [w|].
    + destruct (Condition_toSQL w) as [w'|e] eqn:Hw; cbn [bind].
      * apply Hshape. repeat apply Happ. eexists. reflexivity.
      * right. exists w. split; [reflexivity|]. split; [exact Hw|].
        discriminate.
    + cbn [bind]. apply Hshape. repeat apply Happ. eexists. reflexivity.
Qed.

(** X17.  [userBelongsTo] never throws: the where clause that it attaches
    refers to no table, so the builder's check accepts it for every
    membership table, and the condition renders as the column IN a subquery
    that selects the membership column (the column itself by default) from
    the membership table for the current user. *)
Theorem userBelongsTo_returns (col membershipTable : string)
    (membershipColumn : option string) :
  exists chain,
    userBelongsTo (column col) membershipTable membershipColumn = Ok chain
    /\ ConditionChain_toSQL chain
       = Ok (escapeIdentifier col ++ " IN (SELECT "
               ++ escapeIdentifier (or_else membershipColumn col)
               ++ " FROM " ++ escapeIdentifier membershipTable
               ++ " WHERE user_id = auth.uid())").
Proof.
  eexists. split; [reflexivity|].
  cbn. rewrite !append_assoc. cbn. rewrite !append_assoc. reflexivity.
Qed.

(** X18.  [hasRole] never throws and puts the role into its text as the
    literal that [escapeValue] makes of it: read from where the literal
    starts, the text gives back the role and then goes on after it. *)
Theorem hasRole_escapes_role (role : string) (userRolesTable : option string) :
  exists before literal after,
    ConditionChain_toSQL (hasRole role userRolesTable)
    = Ok (before ++ literal ++ after)
    /\ escapeValue (VString role) = Ok literal
    /\ Lex.read_quoted Str.squote (literal ++ after) = Some (role, after).
Proof.
  exists ("EXISTS (" ++ indent 8 ++ "SELECT 1" ++ indent 8 ++ "FROM "
            ++ escapeIdentifier
                 match userRolesTable with Some t => t | None => "user_roles" end
            ++ indent 8 ++ "WHERE user_id = auth.uid()" ++ indent 8
            ++ "AND role = ").
  exists ("'" ++ Str.replaceAll Str.squote "''" role ++ "'").
  exists (indent 6 ++ ")").
  split; [|split].
  - cbn. rewrite ?append_assoc. cbn. rewrite ?append_assoc. reflexivity.
  - reflexivity.
  - rewrite append_assoc. cbn [append]. rewrite append_assoc.
    apply (read_quoted_escaped Str.squote role (indent 6 ++ ")")).
    reflexivity.
Qed.

(** ** Policy groups *)

Lemma mapM_app {A B : Type} (f : A -> result B) (l1 l2 : list A)
    (r1 r2 : list B) :
  mapM f l1 = Ok r1 -> mapM f l2 = Ok r2 ->
  mapM f (l1 ++ l2) = Ok (r1 ++ r2)%list.
Proof.
  revert r1. induction l1 as [|x l1 IH]; intros r1 H1 H2; cbn in *.
  - now injection H1 as <-.
  - destruct (f x) as [y|]; [|discriminate]. cbn [bind] in *.
    destruct (mapM f l1) as [ys|]; [|discriminate]. cbn [bind] in *.
    injection H1 as <-. now rewrite (IH ys eq_refl H2).
Qed.

Lemma mapM_length {A B : Type} (f : A -> result B) (l : list A) (r : list B) :
  mapM f l = Ok r -> List.length r = List.length l.
Proof.
  revert r. induction l as [|x l IH]; intros r H; cbn in *.
  - now injection H as <-.
  - destruct (f x) as [y|]; [|discriminate]. cbn [bind] in *.
    destruct (mapM f l) as [ys|]; [|discriminate]. cbn [bind] in *.
    injection H as <-. cbn. now rewrite (IH ys).
Qed.

Lemma mapM_first_error {A B : Type} (f : A -> result B) (before after : list A)
    (bad : A) (e : JsError) :
  forallb (fun x => returns (f x)) before = true ->
  f bad = Throw e ->
  mapM f (before ++ bad :: after) = Throw e.
Proof.
  intros Hbefore Hbad. induction before as [|x before IH]; cbn [app mapM].
  - now rewrite Hbad.
  - cbn [forallb] in Hbefore. apply andb_true_iff in Hbefore as [Hx Hrest].
    destruct (f x) as [y|]; [|discriminate]. cbn [bind].
    now rewrite (IH Hrest).
Qed.

Lemma join_app (sep : string) (l1 l2 : list string) :
  l1 <> [] -> l2 <> [] ->
  Str.join sep (l1 ++ l2) = Str.join sep l1 ++ sep ++ Str.join sep l2.
Proof.
  intros H1 H2. induction l1 as [|x l1 IH]; [contradiction|].
  destruct l1 as [|y l1].
  - cbn [app Str.join]. destruct l2; [contradiction | reflexivity].
  - change (Str.join sep ((x :: y :: l1) ++ l2))
      with (x ++ sep ++ Str.join sep ((y :: l1) ++ l2)).
    rewrite IH by discriminate.
    change (Str.join sep (x :: y :: l1))
      with (x ++ sep ++ Str.join sep (y :: l1)).
    now rewrite !append_assoc.
Qed.

Section PolicyGroupFacts.

Variable PolicyBuilder : Type.
Variable SQLGenerationOptions : Type.
Variable PolicyBuilder_toSQL :
  PolicyBuilder -> option SQLGenerationOptions -> result string.

(** X19.  Rendering a group throws as soon as one of its policies does: the
    error is the one of the first policy, in the order of the group, whose
    [toSQL] throws, and no text is produced for the others. *)
Theorem policyGroupToSQL_first_error (name : string)
    (before after : list PolicyBuilder) (bad : PolicyBuilder)
    (description : option string) (options : option SQLGenerationOptions)
    (e : JsError) :
  forallb (fun p => returns (PolicyBuilder_toSQL p options)) before = true ->
  PolicyBuilder_toSQL bad options = Throw e ->
  policyGroupToSQL PolicyBuilder_toSQL
    (createPolicyGroup name (before ++ bad :: after) description) options
  = Throw e.
Proof.
  intros Hbefore Hbad. unfold policyGroupToSQL, createPolicyGroup.
  cbn [group_policies].
  now rewrite (mapM_first_error _ _ _ _ Hbefore Hbad).
Qed.

(** X20.  The description of a group only adds a comment line in front of
    the statements: with a non-empty description the text is the line of
    the description followed by the text of the same group without
    description; an empty description counts as none.  A group without
    policies renders as a lone semicolon. *)
Theorem policyGroupToSQL_description (name : string)
    (policies : list PolicyBuilder) (description : string)
    (options : option SQLGenerationOptions) :
  policyGroupToSQL PolicyBuilder_toSQL
    (createPolicyGroup name policies (Some description)) options
  = (statements <-
       policyGroupToSQL PolicyBuilder_toSQL
         (createPolicyGroup name policies None) options ;;
     Ok (if Str.is_empty description then statements
         else "-- " ++ description ++ Str.newline ++ statements))
  /\ policyGroupToSQL PolicyBuilder_toSQL (createPolicyGroup name [] None)
       options
     = Ok ";".
Proof.
  split; [|reflexivity].
  unfold policyGroupToSQL, createPolicyGroup.
  cbn [group_policies group_description if_truthy].
  destruct (mapM _ policies) as [texts|e]; cbn [bind]; [|reflexivity].
  destruct description; cbn [Str.is_empty]; reflexivity.
Qed.

(** X21.  The text of a group is the texts of its parts one after the
    other: for two non-empty lists of policies that render, the group of
    both lists renders as the text of the first group, two newlines, and
    the text of the second. *)
Theorem policyGroupToSQL_concatenates (name : string)
    (first second : list PolicyBuilder)
    (options : option SQLGenerationOptions) (text1 text2 : string) :
  first <> [] ->
  second <> [] ->
  policyGroupToSQL PolicyBuilder_toSQL (createPolicyGroup name first None)
    options = Ok text1 ->
  policyGroupToSQL PolicyBuilder_toSQL (createPolicyGroup name second None)
    options = Ok text2 ->
  policyGroupToSQL PolicyBuilder_toSQL
    (createPolicyGroup name (first ++ second) None) options
  = Ok (text1 ++ Str.newline ++ Str.newline ++ text2).
Proof.
  unfold policyGroupToSQL, createPolicyGroup.
  cbn [group_policies group_description if_truthy].
  intros Hfirst Hsecond H1 H2.
  destruct (mapM _ first) as [s1|] eqn:E1; [|discriminate].
  destruct (mapM _ second) as [s2|] eqn:E2; [|discriminate].
  cbn [bind] in *. injection H1 as <-. injection H2 as <-.
  rewrite (mapM_app _ _ _ E1 E2). cbn [bind]. f_equal.
  assert (N1 : s1 <> []).
  { intros ->. apply mapM_length in E1. destruct first; [now apply Hfirst|].
    discriminate E1. }
  assert (N2 : s2 <> []).
  { intros ->. apply mapM_length in E2. destruct second; [now apply Hsecond|].
    discriminate E2. }
  rewrite (join_app _ N1 N2). unfold statement_separator.
  now rewrite !append_assoc.
Qed.

End PolicyGroupFacts.

(** X19, witness: policies given by what their [toSQL] does; the second one
    throws, the third would throw another error. *)
Lemma policyGroupToSQL_first_error_witness :
  policyGroupToSQL (fun (p : result string) (_ : option unit) => p)
    (createPolicyGroup "g"
       [Ok "A"; Throw (Error "no predicate"); Throw (Error "later")] None)
    None
  = Throw (Error "no predicate").
Proof.
  exact (@policyGroupToSQL_first_error (result string) unit (fun p _ => p)
           "g" [Ok "A"] [Throw (Error "later")] (Throw (Error "no predicate"))
           None None (Error "no predicate") eq_refl eq_refl).
Defined.

(** X21, witness: a group of two statements followed by a group of one. *)
Lemma policyGroupToSQL_concatenates_witness :
  policyGroupToSQL (fun (p : result string) (_ : option unit) => p)
    (createPolicyGroup "g" [Ok "A"; Ok "B"; Ok "C"] None) None
  = Ok ("A;" ++ Str.newline ++ Str.newline ++ "B;" ++ Str.newline
          ++ Str.newline ++ "C;").
Proof.
  assert (H1 : [Ok "A"; Ok "B"] <> @nil (result string)) by discriminate.
  assert (H2 : [Ok "C"] <> @nil (result string)) by discriminate.
  exact (@policyGroupToSQL_concatenates (result string) unit (fun p _ => p)
           "g" [Ok "A"; Ok "B"] [Ok "C"] None _ _ H1 H2 eq_refl eq_refl).
Defined.

(** ** Rendering is where values fail *)

(** X22.  The column builder accepts any value; the condition it makes
    throws at rendering exactly when [escapeValue] cannot render the value,
    that is when the value holds, at some depth, an invalid date, an object
    whose [toSQL] throws or a value that [String] cannot convert: for a
    comparison and for [contains] the value itself, for [in] with an array
    one of its items.  [like], [ilike] and the null checks always render. *)
Theorem column_conditions_render (this : ColumnBuilder) :
  (forall operator value,
      returns (ConditionChain_toSQL (compare operator this value))
      = renderable (normalizeValue value))
  /\ (forall items,
         returns (ConditionChain_toSQL (in_ this (InArray items)))
         = forallb renderable items)
  /\ (forall value,
         returns (ConditionChain_toSQL (contains this value))
         = renderable value)
  /\ (forall p,
         returns (ConditionChain_toSQL (like this p)) = true
         /\ returns (ConditionChain_toSQL (ilike this p)) = true)
  /\ returns (ConditionChain_toSQL (isNull this)) = true
  /\ returns (ConditionChain_toSQL (isNotNull this)) = true.
Proof.
  repeat split; try reflexivity.
  - intros operator value. rewrite <- escapeValue_returns.
    unfold compare, createComparison, ConditionChain_toSQL.
    cbn [condition Condition_toSQL].
    now destruct (escapeValue (normalizeValue value)).
  - intros items. rewrite <- renderable_array, <- escapeValue_returns.
    rewrite escapeValue_array.
    unfold in_, ConditionChain_toSQL. cbn [condition Condition_toSQL].
    now destruct (mapM escapeValue items).
  - intros value. rewrite <- escapeValue_returns.
    unfold contains, ConditionChain_toSQL. cbn [condition Condition_toSQL].
    now destruct (escapeValue value).
Qed.

(** ** A join and the conditions after it *)

Lemma getAvailableTables_snoc (fromTable : string) (fromAlias : option string)
    (joins : list (string * option string)) (j : string * option string)
    (t : string) :
  In t (getAvailableTables fromTable fromAlias (joins ++ [j]))
  <-> In t (getAvailableTables fromTable fromAlias joins)
      \/ t = or_else (snd j) (fst j).
Proof.
  unfold getAvailableTables. rewrite fold_left_app. cbn [fold_left].
  rewrite Set_add_In. tauto.
Qed.

Lemma filter_none {A : Type} (f : A -> bool) (l : list A) :
  (forall x, In x l -> f x = false) -> filter f l = [].
Proof.
  induction l as [|x l IH]; intros H; [reflexivity|].
  cbn [filter]. rewrite (H x) by now left.
  apply IH. intros y Hy. apply H. now right.
Qed.

(** X23.  A join that is accepted makes its table available to the
    conditions that come after it: a [where] whose tables are all either
    available before the join or the table that the join introduces (under
    its alias when it has one) is then accepted and recorded. *)
Theorem join_makes_its_table_available (this : SubqueryBuilder)
    (table : string) (on : ConditionLike) (type : option JoinType)
    (alias : option string) (cond : ConditionLike) :
  fst (join table on type alias this) = Ok tt ->
  (forall t,
      In t (extractTableReferences (normalize cond)) ->
      In t
        (getAvailableTables (_from this) (_fromAlias this)
           (map join_scope (_joins this)))
      \/ t = or_else alias table) ->
  fst (where_ cond (snd (join table on type alias this))) = Ok tt
  /\ _where (snd (where_ cond (snd (join table on type alias this))))
     = Some (normalize cond)
  /\ List.length
       (_joins (snd (where_ cond (snd (join table on type alias this)))))
     = S (List.length (_joins this)).
Proof.
  intros Hjoin Hrefs. unfold join in *.
  destruct (validateTableReferences (normalize on) _ _ _ _) as [[]|e];
    [|discriminate Hjoin].
  cbn [snd]. unfold where_, validateTableReferences.
  cbn [_from _fromAlias _joins _select _where].
  rewrite map_app. cbn [map]. unfold detectMissingJoins.
  rewrite filter_none.
  - cbn [fst snd _where _joins]. rewrite length_app. cbn.
    repeat split; try reflexivity. lia.
  - intros t Ht. apply negb_false_iff, Set_has_In.
    apply getAvailableTables_snoc. cbn [join_scope fst snd join_table join_alias].
    now apply Hrefs.
Qed.

(** X23, witness: from('projects', 'p').join('members', ..., 'inner', 'm')
    followed by a where on m and p. *)
Lemma join_makes_its_table_available_witness :
  let after_join :=
    snd (join "members"
           (AsChain (eq_ (column "m.project_id") (AsValue (VNumber (Number 1)))))
           (Some inner) (Some "m") (from "projects" (Some "p"))) in
  let cond :=
    AsChain
      (and_ (eq_ (column "m.user_id") (AsValue (VCondition auth.uid)))
         (AsChain (isNull (column "p.deleted_at")))) in
  fst (where_ cond after_join) = Ok tt
  /\ fst (where_ cond (from "projects" (Some "p")))
     = Throw
         (Error
            "Missing join(s) for table(s): m. Add a join using .join('m', ...) before calling .where()").
Proof.
  intros after_join cond. split; [|reflexivity].
  refine (proj1 (@join_makes_its_table_available (from "projects" (Some "p"))
                   "members"
                   (AsChain (eq_ (column "m.project_id") (AsValue (VNumber (Number 1)))))
                   (Some inner) (Some "m") cond eq_refl _)).
  intros t [<- | [<- | []]]; [now right | left; now left].
Defined.

(** ** The walk and the column references *)

Lemma add_table_table_of (ref : string) (tables : list string) :
  add_table ref tables
  = fold_left (fun acc table => Set_add table acc) (table_of ref) tables.
Proof.
  unfold add_table, table_of, if_truthy.
  destruct (extractTableFromColumn ref) as [[|a t]|]; reflexivity.
Qed.

(** The walk takes the column references of the condition one after the
    other, in reading order. *)
Lemma traverse_column_references (c : Condition) :
  forall tables,
    traverse c tables
    = fold_left (fun acc ref => add_table ref acc) (column_references c) tables.
Proof.
  induction c as
    [ col operator value r IH | col operator p r
    | col operator value r | col value r
    | operator conditions r IH | helperType params r
    | functionName arguments r IH | contextType r ]
    using Condition_nested_ind; intros tables;
    cbn [traverse column_references fold_left]; try reflexivity.
  - destruct value; try reflexivity. now apply IH.
  - destruct col; reflexivity.
  - revert tables. induction IH as [|child rest Hchild _ IHrest];
      intros tables; [reflexivity|].
    rewrite fold_left_app, <- Hchild. apply IHrest.
  - revert tables. induction arguments as [|arg rest IHrest]; intros tables;
      [reflexivity|].
    destruct arg as [s | nested].
    + cbn [fold_left]. apply IHrest. intros c Hin. apply IH. now right.
    + rewrite fold_left_app, <- (IH nested) by now left.
      apply IHrest. intros c Hin. apply IH. now right.
Qed.

Lemma fold_add_table_In (x : string) (refs : list string) :
  forall tables,
    In x (fold_left (fun acc ref => add_table ref acc) refs tables)
    <-> In x tables
        \/ exists ref,
             In ref refs /\ extractTableFromColumn ref = Some x
             /\ x <> EmptyString.
Proof.
  induction refs as [|ref refs IH]; intros tables; cbn [fold_left].
  - split; [auto | intros [H | (ref & [] & _)]; exact H].
  - rewrite IH. unfold add_table at 1, if_truthy.
    destruct (extractTableFromColumn ref) as [[|a t]|] eqn:E;
      cbn [Str.is_empty].
    + split.
      * intros [H | (r & Hin & Hr)]; [now left|].
        right. exists r. split; [now right | exact Hr].
      * intros [H | (r & [<- | Hin] & Hr & Hne)]; [now left | |].
        -- rewrite E in Hr. injection Hr as <-. now elim Hne.
        -- right. now exists r.
    + rewrite Set_add_In. split.
      * intros [[-> | H] | (r & Hin & Hr)].
        -- right. exists ref. split; [now left|]. split; [exact E|discriminate].
        -- now left.
        -- right. exists r. split; [now right | exact Hr].
      * intros [H | (r & [<- | Hin] & Hr & Hne)].
        -- left. now right.
        -- rewrite E in Hr. injection Hr as <-. left. now left.
        -- right. now exists r.
    + split.
      * intros [H | (r & Hin & Hr)]; [now left|].
        right. exists r. split; [now right | exact Hr].
      * intros [H | (r & [<- | Hin] & Hr & Hne)]; [now left | |].
        -- rewrite E in Hr. discriminate.
        -- right. now exists r.
Qed.

(** The tables that the walk collects are the tables of the column
    references. *)
Lemma extractTableReferences_In (c : Condition) (x : string) :
  In x (extractTableReferences c)
  <-> exists ref,
        In ref (column_references c) /\ extractTableFromColumn ref = Some x
        /\ x <> EmptyString.
Proof.
  unfold extractTableReferences.
  rewrite traverse_column_references, fold_add_table_In.
  split; [intros [[] | H]; exact H | now right].
Qed.

Lemma indexOf_at_offset (c : ascii) (j k : nat) (s : string) :
  Str.indexOf_at c j s = None -> Str.indexOf_at c k s = None.
Proof.
  revert j k. induction s as [|a s IH]; intros j k H; simpl in *;
    [reflexivity|].
  destruct (Ascii.eqb a c); [discriminate|]. now apply (IH (S j)).
Qed.

Lemma get_after_prefix (prefix rest : string) (k : nat) :
  String.get (String.length prefix + k) (prefix ++ rest) = String.get k rest.
Proof. induction prefix as [|a prefix IH]; simpl; [reflexivity | exact IH]. Qed.

Lemma plain_qualifier_table (qualifier ref : string) :
  plain_qualifier qualifier ref ->
  extractTableFromColumn ref = Some qualifier.
Proof.
  intros (col & -> & Hne & Hdot & Hquote). unfold extractTableFromColumn.
  replace (Str.startsWith Str.dquote (qualifier ++ String Str.dot col))
    with false
    by (destruct qualifier; [contradiction | symmetry; exact Hquote]).
  unfold Str.indexOf in *. cbn [Str.drop] in *.
  rewrite (indexOf_at_first _ _ _ _ Hdot). cbn [Nat.add].
  destruct qualifier as [|a qualifier]; [contradiction|].
  cbn [String.length Nat.ltb Nat.leb]. unfold Str.substring.
  rewrite Nat.sub_0_r.
  change (S (String.length qualifier))
    with (String.length (String a qualifier)).
  now rewrite substring_prefix.
Qed.

Lemma quoted_qualifier_table (qualifier ref : string) :
  quoted_qualifier qualifier ref ->
  extractTableFromColumn ref = Some qualifier.
Proof.
  intros (col & -> & Hne & Hquote). unfold extractTableFromColumn.
  cbn [Str.startsWith]. replace (Ascii.eqb Str.dquote Str.dquote) with true
    by reflexivity.
  unfold Str.indexOf in *. cbn [Str.drop] in *.
  rewrite (indexOf_at_first Str.dquote 1 qualifier (String Str.dot col))
    by (now apply (indexOf_at_offset _ 0)).
  replace (0 <? 1 + String.length qualifier)%nat with true by reflexivity.
  replace (1 + String.length qualifier + 1)%nat
    with (S (String.length qualifier + 1)) by lia.
  cbn [String.get]. rewrite get_after_prefix. cbn [String.get].
  replace (Ascii.eqb Str.dot Str.dot) with true by reflexivity.
  cbn [andb]. unfold Str.substring.
  replace (1 + String.length qualifier - 1)%nat
    with (String.length qualifier) by lia.
  cbn [String.substring]. now rewrite substring_prefix.
Qed.

Lemma mentions_is_found (qualifier : string) (c : Condition) :
  mentions qualifier c -> In qualifier (extractTableReferences c).
Proof.
  intros (ref & Hin & Hq). apply extractTableReferences_In.
  exists ref. split; [exact Hin|].
  destruct Hq as [Hp | Hp].
  - split; [now apply plain_qualifier_table|]. now destruct Hp as (_ & _ & H & _).
  - split; [now apply quoted_qualifier_table|]. now destruct Hp as (_ & _ & H & _).
Qed.

(** C9.  On a builder made by from(t) on which no join was declared,
    [where] throws at the call for every condition that has, at any depth,
    a column reference with a qualifier other than t, written
    qualifier.column or with the qualifier between double quotes: in a
    comparison, a pattern, a null check or a membership, in a child of a
    logical node, in a condition that a comparison compares with, in a
    parameter of a helper or an argument of a function call.  The message
    lists the missing tables, separated by a comma and a space, and
    suggests the [.join] call for the first of them; every qualifier other
    than t that the condition carries is among them, and each of them is
    the table of one of the condition's column references; and the builder
    is as it was before the call, without the where clause. *)
Theorem where_rejects_unknown_table (this : SubqueryBuilder)
    (cond : ConditionLike) (m : string) :
  _fromAlias this = None ->
  _joins this = [] ->
  mentions m (normalize cond) ->
  m <> _from this ->
  exists first rest,
    detectMissingJoins (Some (normalize cond)) [_from this] = first :: rest
    /\ In m (first :: rest)
    /\ (forall x,
           mentions x (normalize cond) -> x <> _from this ->
           In x (first :: rest))
    /\ (forall x,
           In x (first :: rest)
           <-> (exists ref,
                   In ref (column_references (normalize cond))
                   /\ extractTableFromColumn ref = Some x
                   /\ x <> EmptyString)
               /\ x <> _from this)
    /\ where_ cond this
       = (Throw
            (Error
               ("Missing join(s) for table(s): "
                  ++ Str.join ", " (first :: rest) ++ ". "
                  ++ "Add a join using .join('" ++ first
                  ++ "', ...) before calling .where()")),
          this).
Proof.
  intros Halias Hjoins Hm Hneq.
  destruct (where_rejects_missing_table this cond Halias Hjoins
              (mentions_is_found Hm) Hneq)
    as (first & rest & Hmissing & Hin & Hall & Hwhere).
  exists first, rest. split; [exact Hmissing|]. split; [exact Hin|].
  split; [|split; [|exact Hwhere]].
  - intros x Hx Hxt. apply Hall. split; [now apply mentions_is_found | exact Hxt].
  - intros x. rewrite Hall. now rewrite extractTableReferences_In.
Qed.

(** C9, witness: from('t').where(column('m.col').eq(1)). *)
Lemma where_rejects_unknown_table_witness :
  where_ (AsChain (eq_ (column "m.col") (AsValue (VNumber (Number 1)))))
    (from "t" None)
  = (Throw
       (Error
          "Missing join(s) for table(s): m. Add a join using .join('m', ...) before calling .where()"),
     from "t" None)
  /\ _where (from "t" None) = None.
Proof.
  split; [|reflexivity].
  assert (Hm : mentions "m"
                 (normalize
                    (AsChain
                       (eq_ (column "m.col") (AsValue (VNumber (Number 1))))))).
  { exists "m.col". split; [now left|]. left. exists "col".
    repeat split; discriminate. }
  assert (Hneq : "m" <> _from (from "t" None)) by discriminate.
  destruct (@where_rejects_unknown_table (from "t" None)
              (AsChain (eq_ (column "m.col") (AsValue (VNumber (Number 1)))))
              "m" eq_refl eq_refl Hm Hneq)
    as (first & rest & Hmissing & _ & _ & _ & Hwhere).
  rewrite Hwhere. cbn in Hmissing. injection Hmissing as <- <-. reflexivity.
Defined.

(** The same for the other kinds of node: a pattern under a logical node,
    a null check on a quoted qualifier, a membership and a function
    argument are rejected as well. *)
Example where_rejects_other_nodes :
  returns
    (fst (where_
            (AsChain
               (and_ (isNull (column "id"))
                  (AsChain (like (column "m.name") "a%"))))
            (from "t" None))) = false
  /\ returns
       (fst (where_
               (AsChain
                  (isNotNull
                     (column (Policy.quoted "other table" ++ ".flag"))))
               (from "t" None))) = false
  /\ returns
       (fst (where_ (AsChain (in_ (column "m.kind") (InArray [])))
               (from "t" None))) = false
  /\ returns
       (fst (where_ (AsChain (call "f" [CallString "m.x"])) (from "t" None)))
     = false
  /\ returns
       (fst (where_ (AsChain (like (column "t.name") "a%")) (from "t" None)))
     = true.
Proof. repeat split; reflexivity. Qed.

(** ** The order of the collected tables *)

Lemma fold_table_of (refs : list string) :
  forall tables,
    fold_left (fun acc ref => add_table ref acc) refs tables
    = fold_left (fun acc table => Set_add table acc)
        (flat_map table_of refs) tables.
Proof.
  induction refs as [|ref refs IH]; intros tables; [reflexivity|].
  cbn [fold_left flat_map]. rewrite fold_left_app, <- add_table_table_of.
  apply IH.
Qed.

Lemma filter_filter {A : Type} (f g : A -> bool) (l : list A) :
  filter f (filter g l) = filter (fun x => g x && f x) l.
Proof.
  induction l as [|x l IH]; [reflexivity|].
  cbn [filter]. destruct (g x); cbn [andb filter]; [|exact IH].
  destruct (f x); now rewrite IH.
Qed.

Lemma Set_has_app (y : string) (s1 s2 : list string) :
  Set_has y (s1 ++ s2) = Set_has y s1 || Set_has y s2.
Proof. unfold Set_has. apply existsb_app. Qed.

Lemma fold_Set_add_first_seen (l : list string) :
  forall tables,
    fold_left (fun acc table => Set_add table acc) l tables
    = (tables
         ++ filter (fun y => negb (Set_has y tables)) (first_seen l))%list.
Proof.
  induction l as [|x l IH]; intros tables.
  - cbn. now rewrite app_nil_r.
  - cbn [fold_left first_seen filter]. rewrite IH. unfold Set_add.
    destruct (Set_has x tables) eqn:E; cbn [negb].
    + f_equal. rewrite filter_filter. apply filter_ext_in. intros y _.
      destruct (String.eqb y x) eqn:Eyx; [|reflexivity].
      apply String.eqb_eq in Eyx. subst y. now rewrite E.
    + rewrite <- app_assoc. cbn [app]. do 2 f_equal.
      rewrite filter_filter. apply filter_ext. intros y.
      rewrite Set_has_app. unfold Set_has at 2. cbn [existsb].
      rewrite orb_false_r, negb_orb. apply andb_comm.
Qed.

(** X4.  [extractTableReferences] lists the tables of the column
    references of the condition in the order in which they first occur
    when the condition is read depth first and left to right, each table
    once; a reference without table, or with the empty table, gives none.
    This is the order in which the validator's error messages name the
    tables. *)
Theorem extractTableReferences_first_seen_order (condition : Condition) :
  extractTableReferences condition
  = first_seen (flat_map table_of (column_references condition)).
Proof.
  unfold extractTableReferences.
  rewrite traverse_column_references, fold_table_of, fold_Set_add_first_seen.
  cbn [app]. rewrite <- (filter_ext (fun _ => true)) by reflexivity.
  induction (first_seen _) as [|x l IH]; [reflexivity|].
  cbn [filter]. now rewrite IH.
Qed.

(** The tables of (b.x = 1 AND a.y LIKE 'p') OR (b.z IS NULL) are b, then
    a. *)
Example extractTableReferences_order_example :
  extractTableReferences
    (condition
       (or_
          (and_ (eq_ (column "b.x") (AsValue (VNumber (Number 1))))
             (AsChain (like (column "a.y") "p")))
          (AsChain (isNull (column "b.z")))))
  = ["b"; "a"].
Proof. reflexivity. Qed.
